(** * Sharded backup assignment of clickhouse-backup (package [backup])

    A shallow embedding of the version gate ([version.go]), the backup
    sharder (the file declaring [shardDetermination], [fnvHashModShardFunc]
    and [replicaDeterminer]) and [Backuper.populateBackupShardField],
    followed by the properties proved about them.

    Conventions of the embedding:
    - a Go [string] is a Rocq [string]: a sequence of 8-bit characters, that
      is, of bytes; [sort.Strings] and [<] on strings compare bytewise;
    - a Go [int] is a [Z]; a [uint32] is a [Z] reduced modulo [2^32];
    - a Go map is a [gmap]; the order in which [range] visits its entries is
      a parameter of the model (any enumeration of the entries);
    - a Go result pair [(T, error)] is a pair [T * option error], [None]
      standing for the [nil] error;
    - a run-time panic is an outcome of its own ([Panicked]);
    - calls through the collaborator interfaces ([versioner], [querier]) act
      on an abstract backend state and are recorded in a call log. *)

From Stdlib Require Import ZArith Lia.
From stdpp Require Import base list strings gmap fin_maps sorting.

Local Open Scope string_scope.
Local Open Scope list_scope.
Local Open Scope Z_scope.

(** ** Package [hash/fnv]: the 32-bit FNV-1a hash *)

Module fnv.

Definition offset32 : Z := 2166136261.
Definition prime32 : Z := 16777619.

(** Conversion to [uint32]: the low 32 bits. *)
Definition uint32 (z : Z) : Z := z mod 2 ^ 32.

(** The bytes of a string, as [[]byte(s)] gives them. *)
Fixpoint bytes (s : string) : list Z :=
  match s with
  | EmptyString => []
  | String c s' => Z.of_N (Ascii.N_of_ascii c) :: bytes s'
  end.

(** [New32a]: the state of a fresh hash. *)
Definition New32a : Z := offset32.

(** One turn of the loop of [sum32a.Write]:
    [hash ^= sum32a(c); hash *= prime32]. *)
Definition step (hash c : Z) : Z := uint32 (Z.lxor hash c * prime32).

(** [sum32a.Write]. *)
Definition Write (hash : Z) (data : list Z) : Z := foldl step hash data.

(** [sum32a.Sum32]. *)
Definition Sum32 (hash : Z) : Z := uint32 hash.

End fnv.

(** ** Errors *)

(** The error values the package handles: its own four variables (each made
    once by [errors.New]), the errors [fmt.Errorf] makes with a [%w] verb
    (kept as the format, the other arguments and the wrapped error), and
    the errors made elsewhere, which the collaborators return. *)
Inductive error : Type :=
| errUnknownBackupShard
| errNoActiveReplicas
| errShardOperationVers
| errShardOperationUnsupported
| foreignError (text : string)
| wrapError (format : string) (args : list string) (err : error).

(** [fmt.Errorf(format, args..., err)] where [format] ends in [%w]. *)
Definition Errorf (format : string) (args : list string) (err : error) : error :=
  wrapError format args err.

Fixpoint error_eqb (e1 e2 : error) : bool :=
  match e1, e2 with
  | errUnknownBackupShard, errUnknownBackupShard => true
  | errNoActiveReplicas, errNoActiveReplicas => true
  | errShardOperationVers, errShardOperationVers => true
  | errShardOperationUnsupported, errShardOperationUnsupported => true
  | foreignError t1, foreignError t2 => bool_decide (t1 = t2)
  | wrapError f1 a1 w1, wrapError f2 a2 w2 =>
      bool_decide (f1 = f2) && bool_decide (a1 = a2) && error_eqb w1 w2
  | _, _ => false
  end.

(** [errors.Is]: [target] is [err] or is met along its chain of wrapped
    errors. *)
Fixpoint Is (err target : error) : bool :=
  error_eqb err target ||
  match err with
  | wrapError _ _ w => Is w target
  | _ => false
  end.

(** ** Outcomes of a call *)

Inductive outcome (A : Type) : Type :=
| Returned (a : A)
| Panicked (reason : string).
Arguments Returned {A} a.
Arguments Panicked {A} reason.

(** ** The backup sharder *)

(** [shardDetermination], a [map[string]bool]; [None] is the nil map. *)
Abbreviation shardDetermination := (option (gmap string bool)).

(** The entries of a map value: a nil map reads as an empty one. *)
Definition entries (d : shardDetermination) : gmap string bool := default ∅ d.

(** [fmt.Sprintf("%s.%s", database, table)]. *)
Definition qualifiedName (database table : string) : string :=
  database +:+ "." +:+ table.

(** [shardDetermination.inShard]. *)
Definition inShard (d : shardDetermination) (database table : string)
  : bool * option error :=
  let fullName := qualifiedName database table in
  match entries d !! fullName with
  | None =>
      (false, Some (Errorf "error determining backup shard state for %q: %w"
                           [fullName] errUnknownBackupShard))
  | Some presentInShard => (presentInShard, None)
  end.

(** [tableReplicaMetadata]: a row of [system.replicas]. *)
Record tableReplicaMetadata : Type := {
  Database : string;
  Table : string;
  ReplicaName : string;
  ReplicaIsActive : gmap string Z
}.

(** [tableReplicaMetadata.fullName]. *)
Definition fullName (md : tableReplicaMetadata) : string :=
  qualifiedName (Database md) (Table md).

(** [shardFunc]. *)
Abbreviation shardFunc := (tableReplicaMetadata → outcome (bool * option error)).

(** The first loop of [fnvHashModShardFunc]: the names with a positive
    activity, in the order [range] visits the map. *)
Definition collectActive (visited : list (string * Z)) : list string :=
  foldl (λ activeReplicas entry,
           if decide (0 < entry.2) then activeReplicas ++ [entry.1]
           else activeReplicas)
        [] visited.

(** [sort.Strings]: the list in increasing bytewise order. *)
Definition sortStrings (l : list string) : list string :=
  merge_sort String.le l.

(** The body of [fnvHashModShardFunc], [visited] being the order in which
    [range md.ReplicaIsActive] yields the entries of the map. *)
Definition fnvHashModShardFunc_visiting (visited : list (string * Z))
    (md : tableReplicaMetadata) : outcome (bool * option error) :=
  let activeReplicas := collectActive visited in
  if decide (length activeReplicas = 0%nat) then
    Returned (false, Some (Errorf "could not determine in-shard state for %s: %w"
                                  [fullName md] errNoActiveReplicas))
  else
    let activeReplicas := sortStrings activeReplicas in
    let h := fnv.Write fnv.New32a (fnv.bytes (fullName md)) in
    let n := fnv.uint32 (Z.of_nat (length activeReplicas)) in
    if decide (n = 0) then Panicked "integer divide by zero"
    else
      let i := fnv.Sum32 h mod n in
      match activeReplicas !! Z.to_nat i with
      | Some replica => Returned (bool_decide (replica = ReplicaName md), None)
      | None => Panicked "index out of range"
      end.

(** [fnvHashModShardFunc], visiting the map in the order of [map_to_list]. *)
Definition fnvHashModShardFunc : shardFunc :=
  λ md, fnvHashModShardFunc_visiting (map_to_list (ReplicaIsActive md)) md.

(** ** Collaborators *)

(** The calls that leave the package through its interfaces. *)
Inductive call : Type :=
| callGetVersion
| callStructSelectContext (query : string).

(** Package [clickhouse]. *)
Module clickhouse.

(** Modelled from the spec: the declarations of package [clickhouse] are
    not among the sources. The backup kind of a table is Full or
    SchemaOnly ([ShardBackupFull], [ShardBackupSchema] in the code); a
    table that reaches the step may carry any other value of the field
    (the tests build their tables without it), kept here as
    [ShardBackupOther]. *)
Inductive ShardBackupType : Type :=
| ShardBackupFull
| ShardBackupSchema
| ShardBackupOther (raw : string).

(** Modelled from the spec: [clickhouse.Table] has a [Database], a [Name]
    and a [BackupType]; all its other fields are kept together in
    [Others], of a type left open. *)
Record Table (fields : Type) : Type := mkTable {
  Database : string;
  Name : string;
  BackupType : ShardBackupType;
  Others : fields
}.
Arguments mkTable {fields}.
Arguments Database {fields}.
Arguments Name {fields}.
Arguments BackupType {fields}.
Arguments Others {fields}.

(** The assignment [t.BackupType = k]. *)
Definition setBackupType {fields} (k : ShardBackupType) (t : Table fields)
  : Table fields :=
  mkTable (Database t) (Name t) k (Others t).

End clickhouse.

(** A loop [for i := ...] over [n] consecutive indexes from [i] on; the body
    acts on a state and may leave the loop with an error. *)
Fixpoint forRange {St E : Type} (body : nat → St → St * option E)
    (i n : nat) (s : St) : St * option E :=
  match n with
  | O => (s, None)
  | S n' =>
      match body i s with
      | (s', Some e) => (s', Some e)
      | (s', None) => forRange body (S i) n' s'
      end
  end.

Section Backup.

(** [context.Context], and the state of what lies behind the interfaces
    (the server the [versioner] and the [querier] talk to). *)
Context {context backend : Type}.

(** What a run acts on: the backend and the log of the calls made. *)
Record world : Type := mkWorld {
  state : backend;
  calls : list call
}.

(** *** [version.go] *)

Definition minVersShardOp : Z := 21000000.

(** The interface [versioner]: a value of it is its method. *)
Record versioner : Type := {
  GetVersion : context → backend → outcome (Z * option error) * backend
}.

(** The call [v.GetVersion(ctx)]. *)
Definition invokeGetVersion (v : versioner) (ctx : context) (w : world)
  : outcome (Z * option error) * world :=
  let '(r, s) := GetVersion v ctx (state w) in
  (r, mkWorld s (calls w ++ [callGetVersion])).

(** [canShardOperation]. *)
Definition canShardOperation (ctx : context) (v : versioner) (w : world)
  : outcome (option error) * world :=
  match invokeGetVersion v ctx w with
  | (Panicked r, w') => (Panicked r, w')
  | (Returned (version, Some err), w') => (Returned (Some err), w')
  | (Returned (version, None), w') =>
      if decide (version < minVersShardOp)
      then (Returned (Some errShardOperationVers), w')
      else (Returned None, w')
  end.

(** *** The replica determiner *)

(** The interface [backupSharder]. *)
Record backupSharder : Type := {
  determineShards : context → world → outcome (shardDetermination * option error) * world
}.

(** The interface [querier]. [StructSelectContext(ctx, dest, query)] is
    called with [dest] pointing to an empty slice of rows; the method
    gives what [dest] holds afterwards, and the error. *)
Record querier : Type := {
  StructSelectContext :
    context → string → backend → outcome (list tableReplicaMetadata * option error) * backend
}.

(** The call [q.StructSelectContext(ctx, &md, query)]. *)
Definition invokeStructSelectContext (q : querier) (ctx : context)
    (query : string) (w : world)
  : outcome (list tableReplicaMetadata * option error) * world :=
  let '(r, s) := StructSelectContext q ctx query (state w) in
  (r, mkWorld s (calls w ++ [callStructSelectContext query])).

(** [replicaDeterminer]. *)
Record replicaDeterminer : Type := newReplicaDeterminer {
  q : querier;
  sf : shardFunc
}.

Definition replicaStateQuery : string :=
  "SELECT database, table, replica_name, replica_is_active FROM system.replicas;".

(** [replicaDeterminer.getReplicaState]; the nil slice it returns with an
    error is the empty list. *)
Definition getReplicaState (rd : replicaDeterminer) (ctx : context) (w : world)
  : outcome (list tableReplicaMetadata * option error) * world :=
  match invokeStructSelectContext (q rd) ctx replicaStateQuery w with
  | (Panicked r, w') => (Panicked r, w')
  | (Returned (md, Some err), w') =>
      (Returned ([], Some (Errorf "could not determine replication state: %w" [] err)), w')
  | (Returned (md, None), w') => (Returned (md, None), w')
  end.

(** The loop of [replicaDeterminer.determineShards] over the rows, [sd]
    being the map built so far. *)
Fixpoint shardRows (f : shardFunc) (md : list tableReplicaMetadata)
    (sd : gmap string bool) : outcome (shardDetermination * option error) :=
  match md with
  | [] => Returned (Some sd, None)
  | entry :: md' =>
      match f entry with
      | Panicked r => Panicked r
      | Returned (assigned, Some err) => Returned (None, Some err)
      | Returned (assigned, None) =>
          shardRows f md' (<[fullName entry := assigned]> sd)
      end
  end.

(** [replicaDeterminer.determineShards]. *)
Definition replicaDeterminer_determineShards (rd : replicaDeterminer)
    (ctx : context) (w : world)
  : outcome (shardDetermination * option error) * world :=
  match getReplicaState rd ctx w with
  | (Panicked r, w') => (Panicked r, w')
  | (Returned (md, Some err), w') => (Returned (None, Some err), w')
  | (Returned (md, None), w') => (shardRows (sf rd) md ∅, w')
  end.

(** A [replicaDeterminer] as a [backupSharder]. *)
Definition replicaDeterminer_backupSharder (rd : replicaDeterminer) : backupSharder :=
  {| determineShards := replicaDeterminer_determineShards rd |}.

(** *** The orchestration step *)

(** [Backuper], as far as [populateBackupShardField] reads it;
    [ShardedOperation] is [cfg.General.ShardedOperation]. *)
Record Backuper : Type := {
  ShardedOperation : bool;
  vers : versioner;
  bs : backupSharder
}.

Context {fields : Type}.

(** The first loop of [populateBackupShardField]. *)
Definition markAllFull (tables : list (clickhouse.Table fields))
  : list (clickhouse.Table fields) :=
  foldl (λ tables i,
           alter (clickhouse.setBackupType clickhouse.ShardBackupFull) i tables)
        tables (seq 0 (length tables)).

(** One turn of its second loop, at index [i]: [t] is the table [range]
    yields there (the loop never runs past the end of the slice). *)
Definition applyAssignment (assignment : shardDetermination) (i : nat)
    (tables : list (clickhouse.Table fields))
  : list (clickhouse.Table fields) * option error :=
  match tables !! i with
  | None => (tables, None)
  | Some t =>
      match inShard assignment (clickhouse.Database t) (clickhouse.Name t) with
      | (typ, Some err) => (tables, Some err)
      | (typ, None) =>
          if negb typ
          then (alter (clickhouse.setBackupType clickhouse.ShardBackupSchema) i tables, None)
          else (tables, None)
      end
  end.

(** [Backuper.populateBackupShardField]: the slice [tables] is changed in
    place, so what it holds when the call ends is part of the result. *)
Definition populateBackupShardField (b : Backuper) (ctx : context)
    (tables : list (clickhouse.Table fields)) (w : world)
  : list (clickhouse.Table fields) * outcome (option error) * world :=
  let tables := markAllFull tables in
  if negb (ShardedOperation b) then (tables, Returned None, w)
  else
    match canShardOperation ctx (vers b) w with
    | (Panicked r, w1) => (tables, Panicked r, w1)
    | (Returned (Some err), w1) => (tables, Returned (Some err), w1)
    | (Returned None, w1) =>
        match determineShards (bs b) ctx w1 with
        | (Panicked r, w2) => (tables, Panicked r, w2)
        | (Returned (assignment, Some err), w2) => (tables, Returned (Some err), w2)
        | (Returned (assignment, None), w2) =>
            let '(tables, err) :=
              forRange (applyAssignment assignment) 0 (length tables) tables in
            (tables, Returned err, w2)
        end
    end.

End Backup.

Arguments world : clear implicits.
Arguments versioner : clear implicits.
Arguments querier : clear implicits.
Arguments backupSharder : clear implicits.
Arguments replicaDeterminer : clear implicits.
Arguments Backuper : clear implicits.

(** ** The stand-ins of the package's tests *)

Section TestDoubles.

Context {context backend : Type}.

(** [testVersioner]. *)
Record testVersioner : Type := {
  version : Z;
  versionErr : option error
}.

(** [testVersioner.GetVersion]. *)
Definition testVersioner_versioner (v : testVersioner) : versioner context backend :=
  {| GetVersion := λ _ s,
       match versionErr v with
       | Some err => (Returned (-1, Some err), s)
       | None => (Returned (version v, None), s)
       end |}.

(** [testBackupSharder]. *)
Record testBackupSharder : Type := {
  data : shardDetermination;
  err : option error
}.

(** [testBackupSharder.determineShards]. *)
Definition testBackupSharder_backupSharder (bs : testBackupSharder)
  : backupSharder context backend :=
  {| determineShards := λ _ w,
       match err bs with
       | Some e => (Returned (None, Some e), w)
       | None => (Returned (data bs, None), w)
       end |}.

(** [testQuerier], holding rows: its [StructSelectContext] decodes into
    [dest] the JSON encoding of its rows, which gives the rows back. *)
Record testQuerier : Type := {
  rows : list tableReplicaMetadata;
  returnErr : option error
}.

Definition testQuerier_querier (tq : testQuerier) : querier context backend :=
  {| StructSelectContext := λ _ _ s,
       match returnErr tq with
       | Some e => (Returned ([], Some e), s)
       | None => (Returned (rows tq, None), s)
       end |}.

End TestDoubles.

(** [nameSharder], the shard function of [TestDetermineShards]. *)
Definition errNameSharder : error := foreignError "expected error".

Definition nameSharder : shardFunc :=
  λ md,
    if decide (Table md = "error") then Returned (false, Some errNameSharder)
    else if decide (Table md = "present") then Returned (true, None)
    else Returned (false, None).

(** ** Sample data, most of it from the package's tests *)

(** A row with three active replicas and an inactive one. *)
Definition threeActive : tableReplicaMetadata :=
  {| Database := "database"; Table := "table"; ReplicaName := "c";
     ReplicaIsActive := <["c" := 1]> (<["b" := 2]> (<["a" := 1]> {[ "z" := 0 ]})) |}.

(** The row of [Test no active replicas]. *)
Definition noneActive : tableReplicaMetadata :=
  {| Database := "database"; Table := "table"; ReplicaName := "replica";
     ReplicaIsActive := <["replica" := 0]> (<["a" := 0]> {[ "b" := 0 ]}) |}.

(** The rows of [Test normal operation], and rows of which the second makes
    [nameSharder] fail. *)
Definition rowOf (database table : string) : tableReplicaMetadata :=
  {| Database := database; Table := table; ReplicaName := EmptyString;
     ReplicaIsActive := ∅ |}.

Definition normalRows : list tableReplicaMetadata :=
  [ rowOf "a" "present"; rowOf "a" "absent"; rowOf "b" "present" ].

Definition failingRows : list tableReplicaMetadata :=
  [ rowOf "a" "present"; rowOf "a" "error"; rowOf "b" "present" ].

(** A table as the tests build it: a database and a name, the kind left at
    the value a fresh table has. *)
Definition newTable (database name : string) : clickhouse.Table unit :=
  clickhouse.mkTable database name (clickhouse.ShardBackupOther EmptyString) tt.

(** [tableData] of [TestPopulateBackupShardField]. *)
Definition tableData : list (clickhouse.Table unit) :=
  [ newTable "a" "present"; newTable "a" "absent"; newTable "b" "present" ].

(** Its [goodVersioner], [oldVersioner] and [staticSharder], and a querier
    that gives no row. *)
Definition goodVersioner : versioner unit unit :=
  testVersioner_versioner {| version := minVersShardOp; versionErr := None |}.

Definition oldVersioner : versioner unit unit :=
  testVersioner_versioner {| version := -1; versionErr := None |}.

Definition staticSharder : backupSharder unit unit :=
  testBackupSharder_backupSharder
    {| data := Some (<["a.present" := true]>
                       (<["a.absent" := false]> {[ "b.present" := true ]}));
       err := None |}.

Definition emptyQuerier : querier unit unit :=
  testQuerier_querier {| rows := []; returnErr := None |}.

(** The backuper of [Test normal sharding], and one whose sharder is the
    replica determiner over a querier that gives no row. *)
Definition shardingBackuper : Backuper unit unit :=
  {| ShardedOperation := true; vers := goodVersioner; bs := staticSharder |}.

Definition emptyDeterminer : replicaDeterminer unit unit :=
  newReplicaDeterminer emptyQuerier fnvHashModShardFunc.

Definition emptyStateBackuper : Backuper unit unit :=
  {| ShardedOperation := true; vers := goodVersioner;
     bs := replicaDeterminer_backupSharder emptyDeterminer |}.

(** The backuper of [Test incompatible version without sharding config]. *)
Definition plainBackuper : Backuper unit unit :=
  {| ShardedOperation := false; vers := oldVersioner; bs := staticSharder |}.

(** A table with the kind [k]. *)
Definition tableOfKind (database name : string) (k : clickhouse.ShardBackupType)
  : clickhouse.Table unit :=
  clickhouse.mkTable database name k tt.

(** A world in which nothing was called yet. *)
Definition quietWorld : world unit := mkWorld tt [].

(** ** Vocabulary of the statements *)

(** The FNV-1a hash of a string as its definition gives it: from the offset
    basis, each byte in turn is xor-ed into the hash, which is then
    multiplied by the FNV prime, all on 32 bits. *)
Fixpoint fnv1a32_from (hash : Z) (s : string) : Z :=
  match s with
  | EmptyString => hash
  | String c s' =>
      fnv1a32_from
        ((Z.lxor hash (Z.of_N (Ascii.N_of_ascii c)) * 16777619) mod 4294967296) s'
  end.

Definition fnv1a32 (s : string) : Z := fnv1a32_from 2166136261 s.

(** The active replicas of a row: the names whose activity is positive. *)
Definition activeSet (m : gmap string Z) : gset string :=
  dom (filter (λ entry, 0 < entry.2) m).

(** [l] is the list of the active replicas in increasing order. *)
Definition sortedActive (m : gmap string Z) (l : list string) : Prop :=
  Sorted String.le l ∧ NoDup l ∧ ∀ replica, replica ∈ l ↔ replica ∈ activeSet m.

(** The world after a call of [GetVersion] that left the backend in [s]. *)
Definition afterGetVersion {backend} (w : world backend) (s : backend) : world backend :=
  mkWorld s (calls w ++ [callGetVersion]).

(** The world after the replica-state query, which left the backend in [s]. *)
Definition afterQuery {backend} (w : world backend) (s : backend) : world backend :=
  mkWorld s (calls w ++ [callStructSelectContext replicaStateQuery]).

(** The second loop of [populateBackupShardField] read along the list that
    remains to be visited: what the loop makes of it, and the error it
    leaves with. *)
Fixpoint annotate {fields} (assignment : shardDetermination)
    (tables : list (clickhouse.Table fields))
  : list (clickhouse.Table fields) * option error :=
  match tables with
  | [] => ([], None)
  | t :: rest =>
      match inShard assignment (clickhouse.Database t) (clickhouse.Name t) with
      | (typ, Some err) => (t :: rest, Some err)
      | (typ, None) =>
          let '(rest', err) := annotate assignment rest in
          ((if typ then t
            else clickhouse.setBackupType clickhouse.ShardBackupSchema t) :: rest', err)
      end
  end.

(** Two tables that differ at most by their backup kind, the second one
    having kind Full or SchemaOnly. *)
Definition sameButKind {fields} (t t' : clickhouse.Table fields) : Prop :=
  clickhouse.Database t' = clickhouse.Database t
  ∧ clickhouse.Name t' = clickhouse.Name t
  ∧ clickhouse.Others t' = clickhouse.Others t
  ∧ (clickhouse.BackupType t' = clickhouse.ShardBackupFull
     ∨ clickhouse.BackupType t' = clickhouse.ShardBackupSchema).

(** The value the rows give to the key [k]: that of the last row of that
    name, [owned] listing what the shard function returned row by row. *)
Fixpoint lastOwned (md : list tableReplicaMetadata) (owned : list bool)
    (k : string) : option bool :=
  match md, owned with
  | entry :: md', assigned :: owned' =>
      match lastOwned md' owned' k with
      | Some later => Some later
      | None => if decide (fullName entry = k) then Some assigned else None
      end
  | _, _ => None
  end.

(** The key under which a table is looked up. *)
Definition keyOf {fields} (t : clickhouse.Table fields) : string :=
  clickhouse.Database t +:+ "." +:+ clickhouse.Name t.

(** A table with the kind the assignment gives it: SchemaOnly when the
    assignment holds false for it, its present kind otherwise. *)
Definition assigned {fields} (assignment : shardDetermination)
    (t : clickhouse.Table fields) : clickhouse.Table fields :=
  match entries assignment !! keyOf t with
  | Some false => clickhouse.setBackupType clickhouse.ShardBackupSchema t
  | _ => t
  end.

(** The claim that a run which a failed lookup aborts leaves no table with
    the kind SchemaOnly. *)
Definition abortLeavesNoSchemaOnly {context backend fields}
    (b : Backuper context backend) (ctx : context)
    (tables : list (clickhouse.Table fields)) (w : world backend) : Prop :=
  ∀ tables' e w',
    populateBackupShardField b ctx tables w = (tables', Returned (Some e), w') →
    Is e errUnknownBackupShard = true →
    Forall (λ t, clickhouse.BackupType t ≠ clickhouse.ShardBackupSchema) tables'.

(** ** The construction of a backuper *)

Section NewBackuper.

Context {context backend : Type}.

(** [clickhouse.ClickHouse] as [NewBackuper] uses it: the value is both the
    versioner of a new backuper and the querier of its sharder. Its methods
    are not among the sources; they are the two fields. *)
Record ClickHouse : Type := {
  asVersioner : versioner context backend;
  asQuerier : querier context backend
}.

(** [config.Config], as far as the package reads it here:
    [General.ShardedOperation], and the server the [ClickHouse] value of
    the backuper is made for. *)
Record Config : Type := {
  General_ShardedOperation : bool;
  server : ClickHouse
}.

(** [BackuperOpt]. *)
Definition BackuperOpt : Type := Backuper context backend → Backuper context backend.

(** [WithVersioner]. *)
Definition WithVersioner (v : versioner context backend) : BackuperOpt :=
  λ b, {| ShardedOperation := ShardedOperation b; vers := v; bs := bs b |}.

(** [WithBackupSharder]. *)
Definition WithBackupSharder (s : backupSharder context backend) : BackuperOpt :=
  λ b, {| ShardedOperation := ShardedOperation b; vers := vers b; bs := s |}.

(** [NewBackuper]: the options are applied in turn to the backuper made
    from the configuration. *)
Definition NewBackuper (cfg : Config) (opts : list BackuperOpt)
  : Backuper context backend :=
  let ch := server cfg in
  let b := {| ShardedOperation := General_ShardedOperation cfg;
              vers := asVersioner ch;
              bs := replicaDeterminer_backupSharder
                      (newReplicaDeterminer (asQuerier ch) fnvHashModShardFunc) |} in
  foldl (λ b opt, opt b) b opts.

(** An option made by [WithVersioner] or by [WithBackupSharder]. *)
Definition isBackuperOpt (opt : BackuperOpt) : Prop :=
  (∃ v, opt = WithVersioner v) ∨ (∃ s, opt = WithBackupSharder s).

End NewBackuper.

Arguments ClickHouse : clear implicits.
Arguments Config : clear implicits.
Arguments BackuperOpt : clear implicits.

(** ** Further vocabulary *)

(** Whether a string holds the byte of the separator of qualified names. *)
Fixpoint hasDot (s : string) : bool :=
  match s with
  | EmptyString => false
  | String c s' => bool_decide (String c EmptyString = ".") || hasDot s'
  end.

(** A table with the kind the rows give it: SchemaOnly when the shard
    function returned false for the last row of its name, Full otherwise. *)
Definition kindFromRows {fields} (md : list tableReplicaMetadata) (owned : list bool)
    (t : clickhouse.Table fields) : clickhouse.Table fields :=
  clickhouse.setBackupType
    (match lastOwned md owned (keyOf t) with
     | Some false => clickhouse.ShardBackupSchema
     | _ => clickhouse.ShardBackupFull
     end) t.

(** Two tables that differ at most by their backup kind. *)
Definition sameTable {fields} (t t' : clickhouse.Table fields) : Prop :=
  clickhouse.Database t' = clickhouse.Database t
  ∧ clickhouse.Name t' = clickhouse.Name t
  ∧ clickhouse.Others t' = clickhouse.Others t.

(** A row whose only active replica is [active], and a row with other
    activities and the same active replicas as [threeActive]. *)
Definition oneActive (local active : string) : tableReplicaMetadata :=
  {| Database := "database"; Table := "table"; ReplicaName := local;
     ReplicaIsActive := <[active := 1]> (<["a" := 0]> {[ "b" := -1 ]}) |}.

Definition threeActiveToo : tableReplicaMetadata :=
  {| Database := "database"; Table := "table"; ReplicaName := "c";
     ReplicaIsActive := <["a" := 7]> (<["b" := 1]> (<["c" := 3]> {[ "y" := -2 ]})) |}.

(** The server behind the backupers of the samples: its versioner is
    [goodVersioner], its querier gives the rows of [normalRows]. *)
Definition sampleServer : ClickHouse unit unit :=
  {| asVersioner := goodVersioner;
     asQuerier := testQuerier_querier {| rows := normalRows; returnErr := None |} |}.

Definition sampleConfig : Config unit unit :=
  {| General_ShardedOperation := true; server := sampleServer |}.

(** A querier that fails, and a determiner over it. *)
Definition errQuery : error := foreignError "expected error".

Definition failingDeterminer : replicaDeterminer unit unit :=
  newReplicaDeterminer (testQuerier_querier {| rows := []; returnErr := Some errQuery |})
                       nameSharder.

(** A determiner over the rows of [normalRows] with [nameSharder], and a
    backuper with it. *)
Definition nameDeterminer : replicaDeterminer unit unit :=
  newReplicaDeterminer (testQuerier_querier {| rows := normalRows; returnErr := None |})
                       nameSharder.

Definition nameBackuper : Backuper unit unit :=
  {| ShardedOperation := true; vers := goodVersioner;
     bs := replicaDeterminer_backupSharder nameDeterminer |}.

(** Rows of which the second has no active replica, and a backuper whose
    sharder reads them with [fnvHashModShardFunc]. *)
Definition rowsWithIdle : list tableReplicaMetadata :=
  [ threeActive;
    {| Database := "x"; Table := "y"; ReplicaName := "c"; ReplicaIsActive := ∅ |};
    threeActiveToo ].

Definition idleBackuper : Backuper unit unit :=
  {| ShardedOperation := true; vers := goodVersioner;
     bs := replicaDeterminer_backupSharder
             (newReplicaDeterminer
                (testQuerier_querier {| rows := rowsWithIdle; returnErr := None |})
                fnvHashModShardFunc) |}.

(** * Properties *)

(** ** Strings and errors *)

(** Known values of the hash (the test vectors of [hash/fnv]). *)
Example fnv32a_empty : fnv.Sum32 (fnv.Write fnv.New32a (fnv.bytes EmptyString)) = 0x811c9dc5.
Proof. reflexivity. Qed.
Example fnv32a_a : fnv.Sum32 (fnv.Write fnv.New32a (fnv.bytes "a")) = 0xe40c292c.
Proof. reflexivity. Qed.
Example fnv32a_ab : fnv.Sum32 (fnv.Write fnv.New32a (fnv.bytes "ab")) = 0x4d2505ca.
Proof. reflexivity. Qed.
Example fnv32a_foobar : fnv.Sum32 (fnv.Write fnv.New32a (fnv.bytes "foobar")) = 0xbf9cf968.
Proof. reflexivity. Qed.
Example fnv32a_abc : fnv.Sum32 (fnv.Write fnv.New32a (fnv.bytes "abc")) = 0x1a47e90b.
Proof. reflexivity. Qed.

Lemma error_eqb_eq (e1 e2 : error) : error_eqb e1 e2 = true ↔ e1 = e2.
Proof.
  revert e2; induction e1 as [| | | | t1 | f1 a1 w1 IH]; intros [| | | | t2 | f2 a2 w2];
    simpl; try (split; [discriminate | congruence]); try tauto.
  - rewrite bool_decide_eq_true. split; congruence.
  - rewrite !andb_true_iff, !bool_decide_eq_true, IH. split.
    + intros [[-> ->] ->]; reflexivity.
    + intros [= -> -> ->]; auto.
Qed.

Lemma Is_refl (e : error) : Is e e = true.
Proof.
  destruct e; simpl; try reflexivity.
  - apply orb_true_iff; left. apply bool_decide_eq_true; reflexivity.
  - apply orb_true_iff; left. rewrite !andb_true_iff, !bool_decide_eq_true.
    repeat split; auto. apply error_eqb_eq; reflexivity.
Qed.

Lemma Is_Errorf (format : string) (args : list string) (e target : error) :
  Is e target = true → Is (Errorf format args e) target = true.
Proof. intros H. simpl. rewrite H. apply orb_true_r. Qed.

(** ** The version gate and the lookup *)

Section Properties.

Context {context backend fields : Type}.

Implicit Types (ctx : context) (w : world backend).
Implicit Types (tables : list (clickhouse.Table fields)).

Lemma canShardOperation_supported ctx (v : versioner context backend) w version s :
  GetVersion v ctx (state w) = (Returned (version, None), s) →
  21000000 ≤ version →
  canShardOperation ctx v w = (Returned None, afterGetVersion w s).
Proof.
  intros Hget Hv. unfold canShardOperation, invokeGetVersion, afterGetVersion.
  rewrite Hget. unfold minVersShardOp. rewrite decide_False by lia. reflexivity.
Qed.

(** C4. [canShardOperation] asks the versioner once. If the retrieval
    fails, the error it gave is returned as it is; if it gives a version
    below 21000000, [errShardOperationVers] is returned; if it gives a
    version of 21000000 or more, no error is returned. *)
Theorem canShardOperation_cases ctx (v : versioner context backend) w :
  (∀ version err s,
      GetVersion v ctx (state w) = (Returned (version, Some err), s) →
      canShardOperation ctx v w = (Returned (Some err), afterGetVersion w s))
  ∧ (∀ version s,
      GetVersion v ctx (state w) = (Returned (version, None), s) →
      version < 21000000 →
      canShardOperation ctx v w
      = (Returned (Some errShardOperationVers), afterGetVersion w s))
  ∧ (∀ version s,
      GetVersion v ctx (state w) = (Returned (version, None), s) →
      21000000 ≤ version →
      canShardOperation ctx v w = (Returned None, afterGetVersion w s)).
Proof.
  unfold canShardOperation, invokeGetVersion, afterGetVersion, minVersShardOp.
  repeat split; intros * Hget; rewrite Hget; try reflexivity;
    intros Hv; case_decide; (reflexivity || lia).
Qed.

(** C6. [inShard] on a map without the key [database.table] returns false
    and an error that wraps [errUnknownBackupShard] and carries the
    qualified name; on a map with the key it returns the boolean stored
    there and no error, be it true or false; so it does right after the
    key is set. *)
Theorem inShard_lookup (d : shardDetermination) (database table : string) :
  (entries d !! (database +:+ "." +:+ table) = None →
     ∃ e, inShard d database table = (false, Some e)
          ∧ Is e errUnknownBackupShard = true
          ∧ Is e errNoActiveReplicas = false
          ∧ e = wrapError "error determining backup shard state for %q: %w"
                          [database +:+ "." +:+ table] errUnknownBackupShard)
  ∧ (∀ present : bool,
       entries d !! (database +:+ "." +:+ table) = Some present →
       inShard d database table = (present, None))
  ∧ (∀ present : bool,
       inShard (Some (<[database +:+ "." +:+ table := present]> (entries d)))
               database table
       = (present, None)).
Proof.
  unfold inShard, qualifiedName. repeat split.
  - intros ->. eexists; repeat split; reflexivity.
  - intros present ->. reflexivity.
  - intros present. simpl. rewrite lookup_insert_eq. reflexivity.
Qed.

End Properties.

(** ** The assignment function *)

Lemma fnv_Write_from (s : string) (hash : Z) :
  fnv.Write hash (fnv.bytes s) = fnv1a32_from hash s.
Proof.
  revert hash; induction s as [| c s IH]; intros hash; simpl; [reflexivity |].
  apply IH.
Qed.

Lemma fnv1a32_from_range (s : string) (hash : Z) :
  0 ≤ hash < 2 ^ 32 → 0 ≤ fnv1a32_from hash s < 2 ^ 32.
Proof.
  revert hash; induction s as [| c s IH]; intros hash Hh; simpl; [exact Hh |].
  apply IH. change 4294967296 with (2 ^ 32). apply Z.mod_pos_bound. lia.
Qed.

Lemma fnv_Sum32_fnv1a32 (s : string) :
  fnv.Sum32 (fnv.Write fnv.New32a (fnv.bytes s)) = fnv1a32 s.
Proof.
  rewrite fnv_Write_from. unfold fnv.Sum32, fnv.uint32, fnv1a32.
  apply Z.mod_small, fnv1a32_from_range. unfold fnv.New32a, fnv.offset32. lia.
Qed.

Lemma fnv1a32_range (s : string) : 0 ≤ fnv1a32 s < 2 ^ 32.
Proof. apply fnv1a32_from_range. lia. Qed.

Lemma collectActive_filter (visited : list (string * Z)) :
  collectActive visited = (filter (λ entry, 0 < entry.2) visited).*1.
Proof.
  unfold collectActive.
  enough (∀ acc, foldl (λ activeReplicas entry,
                          if decide (0 < entry.2) then activeReplicas ++ [entry.1]
                          else activeReplicas) acc visited
                 = acc ++ (filter (λ entry, 0 < entry.2) visited).*1) as H
      by apply (H []).
  induction visited as [| entry visited IH]; intros acc; simpl.
  - rewrite app_nil_r. reflexivity.
  - rewrite IH, filter_cons. destruct (decide (0 < entry.2)); simpl.
    + rewrite <- app_assoc. reflexivity.
    + reflexivity.
Qed.

Lemma collectActive_Permutation (v1 v2 : list (string * Z)) :
  v1 ≡ₚ v2 → collectActive v1 ≡ₚ collectActive v2.
Proof. intros H. rewrite !collectActive_filter, H. reflexivity. Qed.

(** Whatever algorithm sorts, the outcome is the same: a list has one
    increasing rearrangement. *)
Lemma sortStrings_unique (l sorted : list string) :
  Sorted String.le sorted → sorted ≡ₚ l → sortStrings l = sorted.
Proof.
  intros Hs Hp. apply (Sorted_unique String.le).
  - apply Sorted_merge_sort, _.
  - exact Hs.
  - unfold sortStrings. rewrite merge_sort_Permutation, Hp. reflexivity.
Qed.

Lemma sortStrings_Permutation (l1 l2 : list string) :
  l1 ≡ₚ l2 → sortStrings l1 = sortStrings l2.
Proof.
  intros H. apply sortStrings_unique.
  - apply Sorted_merge_sort, _.
  - unfold sortStrings. rewrite merge_sort_Permutation, H. reflexivity.
Qed.

Lemma elem_of_activeSet (m : gmap string Z) (replica : string) :
  replica ∈ activeSet m ↔ ∃ active, m !! replica = Some active ∧ 0 < active.
Proof.
  unfold activeSet. rewrite elem_of_dom. unfold is_Some.
  setoid_rewrite map_lookup_filter_Some. simpl. naive_solver.
Qed.

Lemma collectActive_map_NoDup (m : gmap string Z) :
  NoDup (collectActive (map_to_list m)).
Proof.
  rewrite collectActive_filter. apply NoDup_fmap_fst.
  - intros k a1 a2 H1 H2.
    apply list_elem_of_filter in H1 as [_ H1], H2 as [_ H2].
    apply elem_of_map_to_list in H1, H2. congruence.
  - apply NoDup_filter, NoDup_map_to_list.
Qed.

Lemma elem_of_collectActive_map (m : gmap string Z) (replica : string) :
  replica ∈ collectActive (map_to_list m) ↔ replica ∈ activeSet m.
Proof.
  rewrite collectActive_filter, elem_of_activeSet, list_elem_of_fmap. split.
  - intros [[k a] [-> H]]. apply list_elem_of_filter in H as [Ha H].
    apply elem_of_map_to_list in H. eauto.
  - intros (a & Hm & Ha). exists (replica, a). split; [reflexivity |].
    apply list_elem_of_filter. split; [exact Ha |].
    apply elem_of_map_to_list, Hm.
Qed.

Lemma sortedActive_collect (m : gmap string Z) (sorted : list string)
    (visited : list (string * Z)) :
  visited ≡ₚ map_to_list m → sortedActive m sorted →
  sorted ≡ₚ collectActive visited.
Proof.
  intros Hv (_ & Hnd & Hel).
  rewrite (collectActive_Permutation _ _ Hv).
  apply NoDup_Permutation; [exact Hnd | apply collectActive_map_NoDup |].
  intros x. rewrite Hel, elem_of_collectActive_map. reflexivity.
Qed.

Lemma sortedActive_length (m : gmap string Z) (sorted : list string) :
  sortedActive m sorted → length sorted = size (activeSet m).
Proof.
  intros (_ & Hnd & Hel). unfold size, set_size; simpl.
  apply Permutation_length, NoDup_Permutation; [exact Hnd | apply NoDup_elements |].
  intros x. rewrite Hel, elem_of_elements. reflexivity.
Qed.

(** The increasing list of the active replicas exists. *)
Lemma sortedActive_exists (m : gmap string Z) :
  sortedActive m (sortStrings (collectActive (map_to_list m))).
Proof.
  unfold sortedActive, sortStrings. split; [apply Sorted_merge_sort, _ |]. split.
  - rewrite merge_sort_Permutation. apply collectActive_map_NoDup.
  - intros x. rewrite merge_sort_Permutation. apply elem_of_collectActive_map.
Qed.

(** [fnvHashModShardFunc] in terms of the increasing list of the active
    replicas, whatever the order in which the map is visited. *)
Lemma fnvHashModShardFunc_visiting_sorted (md : tableReplicaMetadata)
    (sorted : list string) (visited : list (string * Z)) :
  visited ≡ₚ map_to_list (ReplicaIsActive md) →
  sortedActive (ReplicaIsActive md) sorted →
  fnvHashModShardFunc_visiting visited md =
    if decide (sorted = []) then
      Returned (false, Some (wrapError "could not determine in-shard state for %s: %w"
                                       [fullName md] errNoActiveReplicas))
    else if decide (Z.of_nat (length sorted) mod 2 ^ 32 = 0) then
      Panicked "integer divide by zero"
    else
      match sorted !! Z.to_nat (fnv1a32 (fullName md)
                                mod (Z.of_nat (length sorted) mod 2 ^ 32)) with
      | Some replica => Returned (bool_decide (replica = ReplicaName md), None)
      | None => Panicked "index out of range"
      end.
Proof.
  intros Hv Hs.
  pose proof (sortedActive_collect _ _ _ Hv Hs) as Hp.
  unfold fnvHashModShardFunc_visiting.
  rewrite (sortStrings_unique _ sorted (proj1 Hs) Hp), fnv_Sum32_fnv1a32.
  rewrite <- (Permutation_length Hp). unfold fnv.uint32, Errorf.
  destruct sorted as [| r sorted]; [reflexivity |].
  rewrite decide_False by (simpl; lia).
  rewrite (decide_False (P := r :: sorted = [])) by discriminate.
  reflexivity.
Qed.

(** Which outcome [fnvHashModShardFunc] has depends only on the number of
    active replicas: none, a multiple of [2^32], or any other number. *)
Lemma fnvHashModShardFunc_visiting_outcomes (md : tableReplicaMetadata)
    (visited : list (string * Z)) :
  visited ≡ₚ map_to_list (ReplicaIsActive md) →
  let n := Z.of_nat (size (activeSet (ReplicaIsActive md))) in
  (n = 0 ∧ ∃ e, fnvHashModShardFunc_visiting visited md = Returned (false, Some e))
  ∨ (n ≠ 0 ∧ n mod 2 ^ 32 = 0
     ∧ ∃ r, fnvHashModShardFunc_visiting visited md = Panicked r)
  ∨ (n mod 2 ^ 32 ≠ 0
     ∧ ∃ b, fnvHashModShardFunc_visiting visited md = Returned (b, None)).
Proof.
  intros Hv n. pose proof (sortedActive_exists (ReplicaIsActive md)) as Hs.
  rewrite (fnvHashModShardFunc_visiting_sorted md _ visited Hv Hs).
  subst n. rewrite <- (sortedActive_length _ _ Hs).
  set (sorted := sortStrings _) in *. clearbody sorted.
  destruct (decide (sorted = [])) as [-> | Hne].
  { left. split; [reflexivity | eauto]. }
  right. assert (length sorted ≠ 0%nat) by (destruct sorted; [congruence | discriminate]).
  destruct (decide (Z.of_nat (length sorted) mod 2 ^ 32 = 0)) as [H0 | H0].
  { left. split; [lia |]. split; [exact H0 | eauto]. }
  right. split; [exact H0 |].
  destruct (lookup_lt_is_Some_2 sorted
              (Z.to_nat (fnv1a32 (fullName md) mod (Z.of_nat (length sorted) mod 2 ^ 32))))
    as [replica ->]; [| eauto].
  pose proof (fnv1a32_range (fullName md)).
  pose proof (Z.mod_pos_bound (Z.of_nat (length sorted)) (2 ^ 32) ltac:(lia)).
  pose proof (Z.mod_pos_bound (fnv1a32 (fullName md))
                (Z.of_nat (length sorted) mod 2 ^ 32) ltac:(lia)).
  pose proof (Z.mod_le (Z.of_nat (length sorted)) (2 ^ 32) ltac:(lia) ltac:(lia)).
  lia.
Qed.

Lemma sortedActive_nil (m : gmap string Z) (sorted : list string) :
  sortedActive m sorted → sorted = [] ↔ activeSet m = ∅.
Proof.
  intros (_ & _ & Hel). split.
  - intros E. apply set_eq. intros x. rewrite <- Hel, E, elem_of_nil, elem_of_empty.
    reflexivity.
  - intros E. destruct sorted as [| x l]; [reflexivity |].
    assert (x ∈ activeSet m) as Hx by (apply Hel; left).
    rewrite E in Hx. destruct (not_elem_of_empty _ Hx).
Qed.

(** The index a hash selects among the active replicas, when there is one
    at least, falls on a member of the increasing list. *)
Lemma sortedActive_selected (m : gmap string Z) (sorted : list string) (hash : Z) :
  sortedActive m sorted → activeSet m ≠ ∅ → 0 ≤ hash →
  ∃ replica,
    sorted !! Z.to_nat (hash mod Z.of_nat (size (activeSet m))) = Some replica
    ∧ replica ∈ activeSet m.
Proof.
  intros Hs Hne Hh. rewrite <- (sortedActive_length _ _ Hs).
  assert (length sorted ≠ 0%nat) as Hlen.
  { intros Hz. apply Hne, (sortedActive_nil _ _ Hs).
    destruct sorted; [reflexivity | discriminate]. }
  destruct (lookup_lt_is_Some_2 sorted (Z.to_nat (hash mod Z.of_nat (length sorted))))
    as [replica Hr].
  { pose proof (Z.mod_pos_bound hash (Z.of_nat (length sorted)) ltac:(lia)). lia. }
  exists replica. split; [exact Hr |].
  apply (proj2 (proj2 Hs)). eapply list_elem_of_lookup_2, Hr.
Qed.

(** With fewer than [2^32] active replicas, and at least one, the function
    neither fails nor divides by zero. *)
Lemma fnvHashModShardFunc_visiting_small (md : tableReplicaMetadata)
    (sorted : list string) (visited : list (string * Z)) :
  visited ≡ₚ map_to_list (ReplicaIsActive md) →
  sortedActive (ReplicaIsActive md) sorted →
  activeSet (ReplicaIsActive md) ≠ ∅ →
  Z.of_nat (size (activeSet (ReplicaIsActive md))) < 2 ^ 32 →
  fnvHashModShardFunc_visiting visited md =
    match sorted !! Z.to_nat (fnv1a32 (fullName md)
                              mod Z.of_nat (size (activeSet (ReplicaIsActive md)))) with
    | Some replica => Returned (bool_decide (replica = ReplicaName md), None)
    | None => Panicked "index out of range"
    end.
Proof.
  intros Hv Hs Hne Hlt.
  rewrite (fnvHashModShardFunc_visiting_sorted md sorted visited Hv Hs).
  rewrite <- (sortedActive_length _ _ Hs) in *.
  assert (sorted ≠ []) as Hnil by (rewrite (sortedActive_nil _ _ Hs); exact Hne).
  assert (length sorted ≠ 0%nat) by (destruct sorted; [congruence | discriminate]).
  rewrite (decide_False (P := sorted = [])) by exact Hnil.
  rewrite (Z.mod_small (Z.of_nat (length sorted))) by lia.
  rewrite decide_False by lia. reflexivity.
Qed.

(** C1. When the set of active replicas of a row is not empty (and has
    fewer than [2^32] members, so that its size is a [uint32]), the
    assignment function returns no error, and it returns true exactly when
    the local replica name is the entry of the increasing list of the active
    replicas at index FNV-1a([database.table]) mod (number of active
    replicas). *)
Theorem fnvHashModShardFunc_selects (md : tableReplicaMetadata)
    (sorted : list string) (visited : list (string * Z)) :
  visited ≡ₚ map_to_list (ReplicaIsActive md) →
  sortedActive (ReplicaIsActive md) sorted →
  activeSet (ReplicaIsActive md) ≠ ∅ →
  Z.of_nat (size (activeSet (ReplicaIsActive md))) < 2 ^ 32 →
  ∃ replica,
    sorted !! Z.to_nat (fnv1a32 (Database md +:+ "." +:+ Table md)
                        mod Z.of_nat (size (activeSet (ReplicaIsActive md))))
      = Some replica
    ∧ fnvHashModShardFunc_visiting visited md
      = Returned (bool_decide (replica = ReplicaName md), None).
Proof.
  intros Hv Hs Hne Hlt.
  change (Database md +:+ "." +:+ Table md) with (fullName md).
  destruct (sortedActive_selected (ReplicaIsActive md) sorted (fnv1a32 (fullName md))
              Hs Hne) as (replica & Hsel & _).
  { apply fnv1a32_range. }
  exists replica. split; [exact Hsel |].
  rewrite (fnvHashModShardFunc_visiting_small md sorted visited Hv Hs Hne Hlt), Hsel.
  reflexivity.
Qed.

Lemma fnvHashModShardFunc_visiting_Permutation (md : tableReplicaMetadata)
    (v1 v2 : list (string * Z)) :
  v1 ≡ₚ v2 → fnvHashModShardFunc_visiting v1 md = fnvHashModShardFunc_visiting v2 md.
Proof.
  intros H. apply collectActive_Permutation in H.
  unfold fnvHashModShardFunc_visiting.
  rewrite (sortStrings_Permutation _ _ H), (Permutation_length H). reflexivity.
Qed.

(** C2. The outcome of the assignment function does not depend on the
    order in which the entries of the activity map are visited. When the
    set of active replicas is not empty (and has fewer than [2^32]
    members), one of its members is the owner: run with any replica name as
    the local one, on the same table and the same activity map, the
    function returns no error, and true for the owner and for no other
    name. *)
Theorem fnvHashModShardFunc_one_owner (database table : string) (m : gmap string Z) :
  (∀ (replica : string) (v1 v2 : list (string * Z)),
      v1 ≡ₚ v2 →
      fnvHashModShardFunc_visiting v1
        {| Database := database; Table := table;
           ReplicaName := replica; ReplicaIsActive := m |}
      = fnvHashModShardFunc_visiting v2
          {| Database := database; Table := table;
             ReplicaName := replica; ReplicaIsActive := m |})
  ∧ (activeSet m ≠ ∅ →
     Z.of_nat (size (activeSet m)) < 2 ^ 32 →
     ∃ owner : string,
       owner ∈ activeSet m
       ∧ ∀ (replica : string) (visited : list (string * Z)),
           visited ≡ₚ map_to_list m →
           fnvHashModShardFunc_visiting visited
             {| Database := database; Table := table;
                ReplicaName := replica; ReplicaIsActive := m |}
           = Returned (bool_decide (replica = owner), None)).
Proof.
  split.
  { intros replica v1 v2 H. apply fnvHashModShardFunc_visiting_Permutation, H. }
  intros Hne Hlt.
  pose proof (sortedActive_exists m) as Hs.
  set (sorted := sortStrings (collectActive (map_to_list m))) in *.
  destruct (sortedActive_selected m sorted (fnv1a32 (qualifiedName database table)) Hs Hne)
    as (owner & Hsel & Hin).
  { apply fnv1a32_range. }
  exists owner. split; [exact Hin |].
  intros replica visited Hv.
  rewrite (fnvHashModShardFunc_visiting_small
             {| Database := database; Table := table;
                ReplicaName := replica; ReplicaIsActive := m |}
             sorted visited Hv Hs Hne Hlt).
  unfold fullName. simpl. rewrite Hsel.
  f_equal. f_equal. apply bool_decide_ext. split; congruence.
Qed.

Lemma activeSet_empty (m : gmap string Z) :
  activeSet m = ∅ ↔ ∀ replica active, m !! replica = Some active → active ≤ 0.
Proof.
  split.
  - intros He replica active Hm. destruct (decide (0 < active)) as [Hpos |]; [| lia].
    assert (replica ∈ activeSet m) as Hin by (apply elem_of_activeSet; eauto).
    rewrite He in Hin. set_solver.
  - intros Hall. apply set_eq. intros replica. rewrite elem_of_activeSet. split.
    + intros (active & Hm & Hpos). apply Hall in Hm. lia.
    + set_solver.
Qed.

(** C5. The assignment function returns an error that wraps
    [errNoActiveReplicas] exactly when every activity in the map of the row
    is zero or less, the empty map included; whenever it returns an error,
    it returns false with it, and the error is [errNoActiveReplicas]
    wrapped with the qualified name of the table. *)
Theorem fnvHashModShardFunc_no_active (md : tableReplicaMetadata)
    (visited : list (string * Z)) :
  visited ≡ₚ map_to_list (ReplicaIsActive md) →
  ((∀ replica active, ReplicaIsActive md !! replica = Some active → active ≤ 0)
   ↔ ∃ b e, fnvHashModShardFunc_visiting visited md = Returned (b, Some e)
            ∧ Is e errNoActiveReplicas = true)
  ∧ (∀ b e,
       fnvHashModShardFunc_visiting visited md = Returned (b, Some e) →
       b = false
       ∧ e = wrapError "could not determine in-shard state for %s: %w"
                       [Database md +:+ "." +:+ Table md] errNoActiveReplicas).
Proof.
  intros Hv. pose proof (sortedActive_exists (ReplicaIsActive md)) as Hs.
  rewrite (fnvHashModShardFunc_visiting_sorted md _ visited Hv Hs).
  rewrite <- activeSet_empty.
  set (sorted := sortStrings _) in *.
  pose proof (sortedActive_nil _ _ Hs) as Hnil.
  clearbody sorted. rewrite <- Hnil.
  destruct (decide (sorted = [])) as [E | E].
  - split.
    + split; [| intros _; exact E]. intros _. eexists _, _. split; reflexivity.
    + intros b e [= <- <-]. split; reflexivity.
  - assert (∀ (b : bool) (e : error),
      (if decide (Z.of_nat (length sorted) mod 2 ^ 32 = 0) then
         Panicked "integer divide by zero"
       else
         match sorted !! Z.to_nat (fnv1a32 (fullName md)
                                   mod (Z.of_nat (length sorted) mod 2 ^ 32)) with
         | Some replica => Returned (bool_decide (replica = ReplicaName md), None)
         | None => Panicked "index out of range"
         end) ≠ Returned (b, Some e)) as Hno.
    { intros b e. case_decide; [discriminate |]. case_match; discriminate. }
    split.
    + split; [intros E'; contradiction |]. intros (b & e & H & _). destruct (Hno _ _ H).
    + intros b e H. destruct (Hno _ _ H).
Qed.

(** ** The loops of the orchestration step *)

Section Loops.

Context {fields : Type}.

Implicit Types (t : clickhouse.Table fields) (tables : list (clickhouse.Table fields)).

Lemma alter_middle (f : clickhouse.Table fields → clickhouse.Table fields)
    (done todo : list (clickhouse.Table fields)) t :
  alter f (length done) (done ++ t :: todo) = (done ++ [f t]) ++ todo.
Proof.
  induction done as [| d done IH]; simpl; [reflexivity |].
  f_equal. exact IH.
Qed.

Lemma foldl_alter_seq (f : clickhouse.Table fields → clickhouse.Table fields)
    (done todo : list (clickhouse.Table fields)) :
  foldl (λ tables i, alter f i tables) (done ++ todo)
        (seq (length done) (length todo))
  = done ++ (f <$> todo).
Proof.
  revert done; induction todo as [| t todo IH]; intros done; simpl; [reflexivity |].
  rewrite alter_middle.
  replace (S (length done)) with (length (done ++ [f t])) by (rewrite length_app; simpl; lia).
  rewrite IH, <- app_assoc. reflexivity.
Qed.

Lemma markAllFull_fmap tables :
  markAllFull tables
  = clickhouse.setBackupType clickhouse.ShardBackupFull <$> tables.
Proof. apply (foldl_alter_seq _ [] tables). Qed.

Lemma forRange_applyAssignment (assignment : shardDetermination)
    (done todo : list (clickhouse.Table fields)) :
  forRange (applyAssignment assignment) (length done) (length todo) (done ++ todo)
  = (done ++ (annotate assignment todo).1, (annotate assignment todo).2).
Proof.
  revert done; induction todo as [| t todo IH]; intros done; simpl.
  { reflexivity. }
  unfold applyAssignment at 1.
  rewrite (lookup_app_r done (t :: todo)), Nat.sub_diag by lia. simpl.
  destruct (inShard assignment (clickhouse.Database t) (clickhouse.Name t))
    as [typ [err |]]; [reflexivity |].
  assert (∀ t', forRange (applyAssignment assignment) (S (length done))
                  (length todo) ((done ++ [t']) ++ todo)
                = (done ++ t' :: (annotate assignment todo).1,
                   (annotate assignment todo).2)) as Hnext.
  { intros t'. specialize (IH (done ++ [t'])).
    rewrite length_app in IH. simpl in IH.
    replace (length done + 1)%nat with (S (length done)) in IH by lia.
    rewrite IH, <- app_assoc. reflexivity. }
  destruct typ; simpl.
  - change (done ++ t :: todo) with (done ++ [t] ++ todo).
    rewrite app_assoc, Hnext. destruct (annotate assignment todo); reflexivity.
  - rewrite alter_middle, Hnext. destruct (annotate assignment todo); reflexivity.
Qed.

Lemma forRange_annotate (assignment : shardDetermination) tables :
  forRange (applyAssignment assignment) 0 (length tables) tables
  = annotate assignment tables.
Proof.
  pose proof (forRange_applyAssignment assignment [] tables) as H.
  simpl in H. rewrite H. destruct (annotate assignment tables); reflexivity.
Qed.

End Loops.

(** ** The orchestration step *)

Section Orchestration.

Context {context backend fields : Type}.

Implicit Types (ctx : context) (w : world backend) (b : Backuper context backend).
Implicit Types (t : clickhouse.Table fields) (tables : list (clickhouse.Table fields)).
Implicit Types (assignment : shardDetermination).

Local Abbreviation setFull := (clickhouse.setBackupType clickhouse.ShardBackupFull).

Lemma sameButKind_setFull t : sameButKind t (setFull t).
Proof. unfold sameButKind; simpl. auto. Qed.

Lemma Forall2_sameButKind_setFull tables : Forall2 sameButKind tables (setFull <$> tables).
Proof. induction tables; constructor; auto using sameButKind_setFull. Qed.

Lemma Forall_setFull tables :
  Forall (λ t, clickhouse.BackupType t = clickhouse.ShardBackupFull) (setFull <$> tables).
Proof. induction tables; constructor; auto. Qed.

(** The second loop changes nothing but kinds, and those to SchemaOnly. *)
Lemma annotate_frame assignment tables :
  Forall2 (λ t t',
             clickhouse.Database t' = clickhouse.Database t
             ∧ clickhouse.Name t' = clickhouse.Name t
             ∧ clickhouse.Others t' = clickhouse.Others t
             ∧ (clickhouse.BackupType t' = clickhouse.BackupType t
                ∨ clickhouse.BackupType t' = clickhouse.ShardBackupSchema))
          tables (annotate assignment tables).1.
Proof.
  induction tables as [| t tables IH]; simpl; [constructor |].
  destruct (inShard assignment (clickhouse.Database t) (clickhouse.Name t))
    as [typ [err |]]; simpl.
  - apply Forall2_same_length_lookup_2; [reflexivity |].
    intros i x y Hx Hy. rewrite Hx in Hy. injection Hy as <-. auto.
  - destruct (annotate assignment tables) as [rest' err]. simpl in *.
    constructor; [| exact IH]. destruct typ; simpl; auto.
Qed.

Lemma annotate_after_setFull assignment tables :
  Forall2 sameButKind tables (annotate assignment (setFull <$> tables)).1.
Proof.
  pose proof (annotate_frame assignment (setFull <$> tables)) as H.
  revert H. generalize (annotate assignment (setFull <$> tables)).1. intros l H.
  apply Forall2_fmap_l in H. eapply Forall2_impl; [exact H |].
  intros t t' (Hd & Hn & Ho & Hk). unfold sameButKind. simpl in *. tauto.
Qed.

(** The second loop when a lookup fails: the tables before the first one
    that is unknown have the kind the assignment gives them, the others
    are as they were. *)
Lemma annotate_abort assignment (pre post : list (clickhouse.Table fields)) t :
  Forall (λ p, is_Some (entries assignment !! keyOf p)) pre →
  entries assignment !! keyOf t = None →
  annotate assignment (pre ++ t :: post)
  = ((assigned assignment <$> pre) ++ t :: post,
     Some (wrapError "error determining backup shard state for %q: %w"
                     [keyOf t] errUnknownBackupShard)).
Proof.
  intros Hpre Ht. induction Hpre as [| p pre [present Hp] _ IH]; simpl.
  - unfold inShard, qualifiedName. fold (keyOf t). rewrite Ht. reflexivity.
  - unfold inShard at 1, qualifiedName. fold (keyOf p). rewrite Hp. simpl.
    rewrite IH. unfold assigned at 2. rewrite Hp. destruct present; reflexivity.
Qed.

(** The second loop when every lookup succeeds. *)
Lemma annotate_complete assignment tables :
  Forall (λ p, is_Some (entries assignment !! keyOf p)) tables →
  annotate assignment tables = (assigned assignment <$> tables, None).
Proof.
  intros Hall. induction Hall as [| p tables [present Hp] _ IH]; simpl; [reflexivity |].
  unfold inShard at 1, qualifiedName. fold (keyOf p). rewrite Hp. simpl.
  rewrite IH. unfold assigned at 2. rewrite Hp. destruct present; reflexivity.
Qed.

(** The step once both gates are passed. *)
Lemma populateBackupShardField_assigned b ctx tables w w1 w2 assignment :
  ShardedOperation b = true →
  canShardOperation ctx (vers b) w = (Returned None, w1) →
  determineShards (bs b) ctx w1 = (Returned (assignment, None), w2) →
  populateBackupShardField b ctx tables w
  = ((annotate assignment (setFull <$> tables)).1,
     Returned (annotate assignment (setFull <$> tables)).2, w2).
Proof.
  intros Hflag Hgate Hbs. unfold populateBackupShardField.
  rewrite Hflag, Hgate, Hbs, markAllFull_fmap, forRange_annotate. simpl.
  destruct (annotate assignment (setFull <$> tables)); reflexivity.
Qed.

(** What the slice holds when the step ends, however it ends. *)
Lemma populateBackupShardField_tables b ctx tables w :
  (populateBackupShardField b ctx tables w).1.1 = (setFull <$> tables)
  ∨ ∃ assignment,
      (populateBackupShardField b ctx tables w).1.1
      = (annotate assignment (setFull <$> tables)).1.
Proof.
  unfold populateBackupShardField. rewrite markAllFull_fmap.
  destruct (ShardedOperation b); simpl; [| left; reflexivity].
  destruct (canShardOperation ctx (vers b) w) as [[[err |] | r] w1];
    try (left; reflexivity).
  destruct (determineShards (bs b) ctx w1) as [[[assignment [err |]] | r] w2];
    try (left; reflexivity).
  right. exists assignment. rewrite forRange_annotate.
  destruct (annotate assignment (setFull <$> tables)); reflexivity.
Qed.

(** C8. With the feature flag off, the step sets the kind of every table
    to Full and returns no error, and it leaves the world as it found it:
    the backend untouched and no call added to the log, so the versioner
    is not asked and no query is issued. *)
Theorem populateBackupShardField_flag_off b ctx tables w :
  ShardedOperation b = false →
  ∃ tables',
    populateBackupShardField b ctx tables w = (tables', Returned None, w)
    ∧ length tables' = length tables
    ∧ Forall (λ t, clickhouse.BackupType t = clickhouse.ShardBackupFull) tables'
    ∧ Forall2 sameButKind tables tables'.
Proof.
  intros Hflag. exists (setFull <$> tables).
  unfold populateBackupShardField. rewrite Hflag, markAllFull_fmap. simpl.
  split; [reflexivity |]. split; [apply length_fmap |].
  split; [apply Forall_setFull | apply Forall2_sameButKind_setFull].
Qed.

(** C10. Whatever the tables, the backuper and the world, and however the
    step ends, the slice holds afterwards as many tables as before, each
    with the database, the name and the other fields it had, and with a
    kind that is Full or SchemaOnly. *)
Theorem populateBackupShardField_frame b ctx tables w :
  Forall2 sameButKind tables (populateBackupShardField b ctx tables w).1.1.
Proof.
  destruct (populateBackupShardField_tables b ctx tables w) as [-> | [assignment ->]].
  - apply Forall2_sameButKind_setFull.
  - apply annotate_after_setFull.
Qed.

(** C3, as the code has it. Once both gates are passed, if the lookup
    fails for a table and succeeds for those before it, the step returns
    the error of that lookup; the failing table and those after it are
    left with kind Full; each table before it has the kind its lookup gave:
    SchemaOnly where the assignment holds false, Full elsewhere. *)
Theorem populateBackupShardField_aborts b ctx w w1 w2 assignment
    (pre post : list (clickhouse.Table fields)) t :
  ShardedOperation b = true →
  canShardOperation ctx (vers b) w = (Returned None, w1) →
  determineShards (bs b) ctx w1 = (Returned (assignment, None), w2) →
  Forall (λ p, is_Some (entries assignment !! keyOf p)) pre →
  entries assignment !! keyOf t = None →
  populateBackupShardField b ctx (pre ++ t :: post) w
  = ((assigned assignment <$> (setFull <$> pre)) ++ (setFull <$> t :: post),
     Returned (Some (wrapError "error determining backup shard state for %q: %w"
                               [clickhouse.Database t +:+ "." +:+ clickhouse.Name t]
                               errUnknownBackupShard)),
     w2).
Proof.
  intros Hflag Hgate Hbs Hpre Ht.
  rewrite (populateBackupShardField_assigned b ctx _ w w1 w2 assignment Hflag Hgate Hbs).
  rewrite fmap_app, fmap_cons.
  rewrite (annotate_abort assignment (setFull <$> pre) (setFull <$> post) (setFull t)).
  - reflexivity.
  - apply Forall_fmap. exact Hpre.
  - exact Ht.
Qed.

End Orchestration.

(** ** The replica determiner *)

Section Determiner.

Context {context backend : Type}.

Implicit Types (ctx : context) (w : world backend).
Implicit Types (rd : replicaDeterminer context backend).

Lemma lastOwned_None (md : list tableReplicaMetadata) (owned : list bool) (k : string) :
  length md = length owned →
  lastOwned md owned k = None ↔ k ∉ fullName <$> md.
Proof.
  revert owned; induction md as [| entry md IH]; intros [| assigned owned] Hlen;
    simpl in *; try discriminate.
  - split; [intros _; apply not_elem_of_nil | reflexivity].
  - rewrite not_elem_of_cons, <- (IH owned) by lia.
    destruct (lastOwned md owned k).
    + split; [discriminate | intros [_ ?]; discriminate].
    + case_decide.
      * split; [discriminate | intros [? _]; congruence].
      * split; [intros _; split; congruence | reflexivity].
Qed.

Lemma lastOwned_last (md : list tableReplicaMetadata) (owned : list bool)
    (i : nat) (entry : tableReplicaMetadata) (assigned : bool) :
  md !! i = Some entry → owned !! i = Some assigned →
  (∀ j later, (i < j)%nat → md !! j = Some later → fullName later ≠ fullName entry) →
  length md = length owned →
  lastOwned md owned (fullName entry) = Some assigned.
Proof.
  revert owned i; induction md as [| e md IH]; intros [| a owned] i Hm Ho Hlast Hlen;
    simpl in *; try discriminate.
  destruct i as [| i]; simpl in *.
  - injection Hm as ->. injection Ho as ->.
    assert (lastOwned md owned (fullName entry) = None) as ->.
    { apply lastOwned_None; [lia |]. intros Hin.
      apply list_elem_of_fmap in Hin as (later & Heq & Hin).
      apply list_elem_of_lookup in Hin as [j Hj].
      apply (Hlast (S j) later); [lia | exact Hj | congruence]. }
    rewrite decide_True by reflexivity. reflexivity.
  - rewrite (IH owned i Hm Ho); [reflexivity | | lia].
    intros j later Hij Hj. apply (Hlast (S j) later); [lia | exact Hj].
Qed.

(** The loop over the rows when the shard function fails on none. *)
Lemma shardRows_complete (f : shardFunc) (md : list tableReplicaMetadata)
    (owned : list bool) (sd : gmap string bool) :
  Forall2 (λ entry assigned, f entry = Returned (assigned, None)) md owned →
  ∃ sd', shardRows f md sd = Returned (Some sd', None)
         ∧ ∀ k, sd' !! k = match lastOwned md owned k with
                           | Some assigned => Some assigned
                           | None => sd !! k
                           end.
Proof.
  intros Hall. revert sd.
  induction Hall as [| entry assigned md owned Hf Hall IH]; intros sd; simpl.
  - exists sd. split; reflexivity.
  - rewrite Hf. destruct (IH (<[fullName entry := assigned]> sd)) as (sd' & -> & Hsd').
    exists sd'. split; [reflexivity |]. intros k. rewrite Hsd'.
    destruct (lastOwned md owned k); [reflexivity |].
    rewrite lookup_insert. case_decide; reflexivity.
Qed.

(** The loop over the rows when the shard function fails on one. *)
Lemma shardRows_abort (f : shardFunc) (pre post : list tableReplicaMetadata)
    (entry : tableReplicaMetadata) (assigned : bool) (err : error)
    (sd : gmap string bool) :
  Forall (λ r, ∃ a, f r = Returned (a, None)) pre →
  f entry = Returned (assigned, Some err) →
  shardRows f (pre ++ entry :: post) sd = Returned (None, Some err).
Proof.
  intros Hpre Hf. revert sd.
  induction Hpre as [| r pre [a Hr] _ IH]; intros sd; simpl.
  - rewrite Hf. reflexivity.
  - rewrite Hr. apply IH.
Qed.

Lemma replicaDeterminer_runs_shardRows rd ctx w
    (md : list tableReplicaMetadata) (s : backend) :
  StructSelectContext (q rd) ctx replicaStateQuery (state w) = (Returned (md, None), s) →
  replicaDeterminer_determineShards rd ctx w = (shardRows (sf rd) md ∅, afterQuery w s).
Proof.
  intros Hq. unfold replicaDeterminer_determineShards, getReplicaState,
    invokeStructSelectContext. rewrite Hq. reflexivity.
Qed.

(** C7. When the replica-state query gives its rows, [determineShards]
    has issued that one query and nothing else. If the shard function
    fails on a row and on none before it, the error of that row is
    returned, with the nil map. If it fails on no row, a map is returned
    with no error; its keys are the qualified names of the rows, and each
    name has the value the shard function gave for the last row of that
    name. *)
Theorem determineShards_rows rd ctx w (md : list tableReplicaMetadata) (s : backend) :
  StructSelectContext (q rd) ctx replicaStateQuery (state w) = (Returned (md, None), s) →
  (∀ pre entry post assigned err,
      md = pre ++ entry :: post →
      Forall (λ r, ∃ a, sf rd r = Returned (a, None)) pre →
      sf rd entry = Returned (assigned, Some err) →
      determineShards (replicaDeterminer_backupSharder rd) ctx w
      = (Returned (None, Some err), afterQuery w s))
  ∧ (∀ owned : list bool,
      Forall2 (λ entry assigned, sf rd entry = Returned (assigned, None)) md owned →
      ∃ sd : gmap string bool,
        determineShards (replicaDeterminer_backupSharder rd) ctx w
        = (Returned (Some sd, None), afterQuery w s)
        ∧ (∀ k, is_Some (sd !! k) ↔ k ∈ fullName <$> md)
        ∧ (∀ i entry assigned,
             md !! i = Some entry → owned !! i = Some assigned →
             (∀ j later, (i < j)%nat → md !! j = Some later →
                         fullName later ≠ fullName entry) →
             sd !! (Database entry +:+ "." +:+ Table entry) = Some assigned)).
Proof.
  intros Hq. simpl. rewrite (replicaDeterminer_runs_shardRows rd ctx w md s Hq).
  split.
  - intros pre entry post assigned err -> Hpre Hf.
    rewrite (shardRows_abort (sf rd) pre post entry assigned err ∅ Hpre Hf). reflexivity.
  - intros owned Hall.
    destruct (shardRows_complete (sf rd) md owned ∅ Hall) as (sd & -> & Hsd).
    pose proof (Forall2_length _ _ _ Hall) as Hlen.
    exists sd. split; [reflexivity |]. split.
    + intros k. rewrite Hsd.
      pose proof (lastOwned_None md owned k Hlen) as Hnone.
      destruct (lastOwned md owned k) as [a |].
      * split; [| eauto]. intros _. destruct (decide (k ∈ fullName <$> md)); [done |].
        apply Hnone in n. discriminate.
      * rewrite lookup_empty. split; [intros [? ?]; discriminate |].
        intros Hin. exfalso. apply (proj1 Hnone); [reflexivity | exact Hin].
    + intros i entry assigned Hm Ho Hlast. change (_ +:+ _) with (fullName entry).
      rewrite Hsd, (lastOwned_last md owned i entry assigned Hm Ho Hlast Hlen).
      reflexivity.
Qed.

(** C9. When the replica-state query gives no row and no error,
    [determineShards] returns an empty map and no error. So, with the
    feature flag on, a version of 21000000 or more and the replica
    determiner as sharder, the step on a list of at least one table
    returns the unknown-backup-shard error of its first table, all tables
    being left with kind Full. *)
Theorem determineShards_no_rows rd ctx :
  (∀ w s,
      StructSelectContext (q rd) ctx replicaStateQuery (state w) = (Returned ([], None), s) →
      determineShards (replicaDeterminer_backupSharder rd) ctx w
      = (Returned (Some ∅, None), afterQuery w s))
  ∧ (∀ (fields : Type) (b : Backuper context backend) w version s1 s2
       (t : clickhouse.Table fields) (rest : list (clickhouse.Table fields)),
      ShardedOperation b = true →
      bs b = replicaDeterminer_backupSharder rd →
      GetVersion (vers b) ctx (state w) = (Returned (version, None), s1) →
      21000000 ≤ version →
      StructSelectContext (q rd) ctx replicaStateQuery s1 = (Returned ([], None), s2) →
      populateBackupShardField b ctx (t :: rest) w
      = (clickhouse.setBackupType clickhouse.ShardBackupFull <$> t :: rest,
         Returned (Some (wrapError "error determining backup shard state for %q: %w"
                                   [clickhouse.Database t +:+ "." +:+ clickhouse.Name t]
                                   errUnknownBackupShard)),
         afterQuery (afterGetVersion w s1) s2)).
Proof.
  assert (∀ w s,
    StructSelectContext (q rd) ctx replicaStateQuery (state w) = (Returned ([], None), s) →
    determineShards (replicaDeterminer_backupSharder rd) ctx w
    = (Returned (Some ∅, None), afterQuery w s)) as Hempty.
  { intros w s Hq. simpl.
    rewrite (replicaDeterminer_runs_shardRows rd ctx w [] s Hq). reflexivity. }
  split; [exact Hempty |].
  intros fields b w version s1 s2 t rest Hflag Hbs Hv Hmin Hq.
  pose proof (canShardOperation_supported ctx (vers b) w version s1 Hv Hmin) as Hgate.
  pose proof (Hempty (afterGetVersion w s1) s2 Hq) as Hdet. rewrite <- Hbs in Hdet.
  rewrite (populateBackupShardField_assigned b ctx _ w _ _ (Some ∅) Hflag Hgate Hdet).
  set (full := clickhouse.setBackupType (fields := fields) clickhouse.ShardBackupFull).
  assert (annotate (Some ∅) (full t :: (full <$> rest))
          = (full t :: (full <$> rest),
             Some (wrapError "error determining backup shard state for %q: %w"
                             [keyOf (full t)] errUnknownBackupShard))) as Habort
    by exact (annotate_abort (Some ∅) [] (full <$> rest) (full t)
                (Forall_nil_2 _) (lookup_empty _)).
  rewrite fmap_cons, Habort. reflexivity.
Qed.

End Determiner.

(** ** The statements on the data of the tests *)

Lemma threeActive_sorted : sortedActive (ReplicaIsActive threeActive) ["a"; "b"; "c"].
Proof.
  pose proof (sortedActive_exists (ReplicaIsActive threeActive)) as H.
  replace (sortStrings (collectActive (map_to_list (ReplicaIsActive threeActive))))
    with ["a"; "b"; "c"] in H by (vm_compute; reflexivity).
  exact H.
Defined.

Lemma threeActive_nonempty : activeSet (ReplicaIsActive threeActive) ≠ ∅.
Proof.
  intros H. assert ("a" ∈ activeSet (ReplicaIsActive threeActive)) as Hin.
  { apply elem_of_activeSet. exists 1. split; [vm_compute; reflexivity | lia]. }
  rewrite H in Hin. exact (not_elem_of_empty _ Hin).
Defined.

Lemma threeActive_size : size (activeSet (ReplicaIsActive threeActive)) = 3%nat.
Proof. vm_compute. reflexivity. Defined.

Lemma fnvHashModShardFunc_selects_witness :
  ∃ replica,
    ["a"; "b"; "c"] !! Z.to_nat (fnv1a32 "database.table"
                                 mod Z.of_nat (size (activeSet (ReplicaIsActive threeActive))))
      = Some replica
    ∧ fnvHashModShardFunc_visiting [("z", 0); ("c", 1); ("b", 2); ("a", 1)] threeActive
      = Returned (bool_decide (replica = "c"), None).
Proof.
  apply (fnvHashModShardFunc_selects threeActive ["a"; "b"; "c"]
           [("z", 0); ("c", 1); ("b", 2); ("a", 1)]).
  - apply (bool_decide_unpack _). vm_compute. exact I.
  - exact threeActive_sorted.
  - exact threeActive_nonempty.
  - rewrite threeActive_size. lia.
Defined.

Example fnvHashModShardFunc_threeActive :
  fnvHashModShardFunc threeActive = Returned (true, None)
  ∧ fnv1a32 "database.table" = 1454338742.
Proof. split; vm_compute; reflexivity. Qed.

Lemma fnvHashModShardFunc_one_owner_witness :
  ∃ owner : string,
    owner ∈ activeSet (ReplicaIsActive threeActive)
    ∧ ∀ (replica : string) (visited : list (string * Z)),
        visited ≡ₚ map_to_list (ReplicaIsActive threeActive) →
        fnvHashModShardFunc_visiting visited
          {| Database := "database"; Table := "table";
             ReplicaName := replica; ReplicaIsActive := ReplicaIsActive threeActive |}
        = Returned (bool_decide (replica = owner), None).
Proof.
  apply (proj2 (fnvHashModShardFunc_one_owner "database" "table"
                  (ReplicaIsActive threeActive))).
  - exact threeActive_nonempty.
  - rewrite threeActive_size. lia.
Defined.

Lemma fnvHashModShardFunc_no_active_witness :
  fnvHashModShardFunc_visiting [("a", 0); ("replica", 0); ("b", 0)] noneActive
  = Returned (false,
              Some (wrapError "could not determine in-shard state for %s: %w"
                              ["database.table"] errNoActiveReplicas)).
Proof.
  destruct (fnvHashModShardFunc_no_active noneActive [("a", 0); ("replica", 0); ("b", 0)])
    as [Hiff Hshape].
  - apply (bool_decide_unpack _). vm_compute. exact I.
  - destruct (proj1 Hiff) as (b & e & Hrun & _).
    + intros replica active Hm.
      apply elem_of_map_to_list in Hm.
      assert (map_to_list (ReplicaIsActive noneActive) ⊆ [("a", 0); ("replica", 0); ("b", 0)])
        as Hsub by (apply (bool_decide_unpack _); vm_compute; exact I).
      apply Hsub in Hm. repeat (apply elem_of_cons in Hm as [[= _ <-] | Hm]; [lia |]).
      destruct (not_elem_of_nil _ Hm).
    + destruct (Hshape b e Hrun) as [-> ->]. exact Hrun.
Defined.

Lemma canShardOperation_cases_witness :
  canShardOperation tt goodVersioner quietWorld
  = (Returned None, mkWorld tt [callGetVersion])
  ∧ canShardOperation tt oldVersioner quietWorld
    = (Returned (Some errShardOperationVers), mkWorld tt [callGetVersion])
  ∧ canShardOperation tt
      (testVersioner_versioner
         {| version := 0; versionErr := Some (foreignError "versioner error") |})
      quietWorld
    = (Returned (Some (foreignError "versioner error")), mkWorld tt [callGetVersion]).
Proof.
  split; [| split].
  - apply (proj2 (proj2 (canShardOperation_cases tt goodVersioner quietWorld))
             21000000 tt); [reflexivity | lia].
  - apply (proj1 (proj2 (canShardOperation_cases tt oldVersioner quietWorld))
             (-1) tt); [reflexivity | lia].
  - apply (proj1 (canShardOperation_cases tt _ quietWorld) (-1)
             (foreignError "versioner error") tt). reflexivity.
Defined.

Lemma inShard_lookup_witness :
  (∃ e, inShard (Some {[ "a.absent" := false ]}) "b" "present" = (false, Some e)
        ∧ Is e errUnknownBackupShard = true
        ∧ Is e errNoActiveReplicas = false
        ∧ e = wrapError "error determining backup shard state for %q: %w"
                        ["b.present"] errUnknownBackupShard)
  ∧ inShard (Some {[ "a.absent" := false ]}) "a" "absent" = (false, None).
Proof.
  split.
  - apply (proj1 (inShard_lookup (Some {[ "a.absent" := false ]}) "b" "present")).
    vm_compute. reflexivity.
  - apply (proj1 (proj2 (inShard_lookup (Some {[ "a.absent" := false ]}) "a" "absent"))).
    vm_compute. reflexivity.
Defined.

Lemma determineShards_rows_witness :
  determineShards
    (replicaDeterminer_backupSharder
       (newReplicaDeterminer
          (testQuerier_querier {| rows := failingRows; returnErr := None |}) nameSharder))
    tt quietWorld
  = (Returned (None, Some errNameSharder),
     mkWorld tt [callStructSelectContext replicaStateQuery])
  ∧ ∃ sd : gmap string bool,
      determineShards
        (replicaDeterminer_backupSharder
           (newReplicaDeterminer
              (testQuerier_querier {| rows := normalRows; returnErr := None |}) nameSharder))
        tt quietWorld
      = (Returned (Some sd, None), mkWorld tt [callStructSelectContext replicaStateQuery])
      ∧ sd !! "a.absent" = Some false.
Proof.
  split.
  - refine (proj1 (determineShards_rows
                     (newReplicaDeterminer
                        (testQuerier_querier {| rows := failingRows; returnErr := None |})
                        nameSharder)
                     tt quietWorld failingRows tt eq_refl)
                  [rowOf "a" "present"] (rowOf "a" "error") [rowOf "b" "present"]
                  false errNameSharder eq_refl _ eq_refl).
    repeat constructor. exists true. reflexivity.
  - destruct (proj2 (determineShards_rows
                     (newReplicaDeterminer
                        (testQuerier_querier {| rows := normalRows; returnErr := None |})
                        nameSharder)
                     tt quietWorld normalRows tt eq_refl) [true; false; true])
      as (sd & Hrun & _ & Hlast).
    + repeat constructor.
    + exists sd. split; [exact Hrun |].
      apply (Hlast 1%nat _ false eq_refl eq_refl).
      intros [| [| [| j]]] later Hj Hlater; try lia; try discriminate.
      injection Hlater as <-. vm_compute. discriminate.
Defined.

(** C3, as stated, fails. The tables of the tests followed by a table the
    assignment does not know: the step returns the unknown-backup-shard
    error of the last table, and the second table, for which the
    assignment holds false, is left with kind SchemaOnly. *)
Lemma populateBackupShardField_partial_commit :
  populateBackupShardField shardingBackuper tt
    (tableData ++ [newTable "c" "missing"]) quietWorld
  = ([ tableOfKind "a" "present" clickhouse.ShardBackupFull;
       tableOfKind "a" "absent" clickhouse.ShardBackupSchema;
       tableOfKind "b" "present" clickhouse.ShardBackupFull;
       tableOfKind "c" "missing" clickhouse.ShardBackupFull ],
     Returned (Some (wrapError "error determining backup shard state for %q: %w"
                               ["c.missing"] errUnknownBackupShard)),
     mkWorld tt [callGetVersion])
  ∧ ¬ abortLeavesNoSchemaOnly shardingBackuper tt
        (tableData ++ [newTable "c" "missing"]) quietWorld.
Proof.
  assert (populateBackupShardField shardingBackuper tt
            (tableData ++ [newTable "c" "missing"]) quietWorld
          = ([ tableOfKind "a" "present" clickhouse.ShardBackupFull;
               tableOfKind "a" "absent" clickhouse.ShardBackupSchema;
               tableOfKind "b" "present" clickhouse.ShardBackupFull;
               tableOfKind "c" "missing" clickhouse.ShardBackupFull ],
             Returned (Some (wrapError "error determining backup shard state for %q: %w"
                                       ["c.missing"] errUnknownBackupShard)),
             mkWorld tt [callGetVersion])) as Hrun
    by (vm_compute; reflexivity).
  split; [exact Hrun |].
  intros Hclaim. specialize (Hclaim _ _ _ Hrun eq_refl).
  apply Forall_cons_1 in Hclaim as [_ Hclaim].
  apply Forall_cons_1 in Hclaim as [Hschema _].
  apply Hschema. reflexivity.
Qed.

Lemma populateBackupShardField_aborts_witness :
  populateBackupShardField shardingBackuper tt
    (tableData ++ newTable "c" "missing" :: [newTable "b" "present"]) quietWorld
  = ([ tableOfKind "a" "present" clickhouse.ShardBackupFull;
       tableOfKind "a" "absent" clickhouse.ShardBackupSchema;
       tableOfKind "b" "present" clickhouse.ShardBackupFull;
       tableOfKind "c" "missing" clickhouse.ShardBackupFull;
       tableOfKind "b" "present" clickhouse.ShardBackupFull ],
     Returned (Some (wrapError "error determining backup shard state for %q: %w"
                               ["c.missing"] errUnknownBackupShard)),
     mkWorld tt [callGetVersion]).
Proof.
  rewrite (populateBackupShardField_aborts shardingBackuper tt quietWorld
             (mkWorld tt [callGetVersion]) (mkWorld tt [callGetVersion])
             (Some (<["a.present" := true]>
                      (<["a.absent" := false]> {[ "b.present" := true ]})))
             tableData [newTable "b" "present"] (newTable "c" "missing")).
  - vm_compute. reflexivity.
  - reflexivity.
  - reflexivity.
  - reflexivity.
  - apply (bool_decide_unpack _). vm_compute. exact I.
  - vm_compute. reflexivity.
Defined.

Lemma populateBackupShardField_flag_off_witness :
  ∃ tables',
    populateBackupShardField plainBackuper tt tableData quietWorld
    = (tables', Returned None, quietWorld)
    ∧ length tables' = length tableData
    ∧ Forall (λ t, clickhouse.BackupType t = clickhouse.ShardBackupFull) tables'
    ∧ Forall2 sameButKind tableData tables'.
Proof.
  apply (populateBackupShardField_flag_off plainBackuper tt tableData quietWorld).
  reflexivity.
Defined.

Lemma determineShards_no_rows_witness :
  determineShards (replicaDeterminer_backupSharder emptyDeterminer) tt quietWorld
  = (Returned (Some ∅, None), mkWorld tt [callStructSelectContext replicaStateQuery])
  ∧ populateBackupShardField emptyStateBackuper tt tableData quietWorld
    = ([ tableOfKind "a" "present" clickhouse.ShardBackupFull;
         tableOfKind "a" "absent" clickhouse.ShardBackupFull;
         tableOfKind "b" "present" clickhouse.ShardBackupFull ],
       Returned (Some (wrapError "error determining backup shard state for %q: %w"
                                 ["a.present"] errUnknownBackupShard)),
       mkWorld tt [callGetVersion; callStructSelectContext replicaStateQuery]).
Proof.
  split.
  - apply (proj1 (determineShards_no_rows emptyDeterminer tt) quietWorld tt). reflexivity.
  - apply (proj2 (determineShards_no_rows emptyDeterminer tt) unit emptyStateBackuper
             quietWorld 21000000 tt tt (newTable "a" "present")
             [newTable "a" "absent"; newTable "b" "present"]);
      first [reflexivity | unfold goodVersioner, minVersShardOp; lia].
Defined.

Example populateBackupShardField_normal_sharding :
  populateBackupShardField shardingBackuper tt tableData quietWorld
  = ([ tableOfKind "a" "present" clickhouse.ShardBackupFull;
       tableOfKind "a" "absent" clickhouse.ShardBackupSchema;
       tableOfKind "b" "present" clickhouse.ShardBackupFull ],
     Returned None, mkWorld tt [callGetVersion]).
Proof. vm_compute. reflexivity. Qed.

(** ** The cases of the package's tests *)

(** The order of [sort.Strings]: byte by byte, a prefix before its
    extensions, capitals before small letters. *)
Example sortStrings_order :
  sortStrings ["b"; "ab"; "replica"; "a"; "B"; "Replica"; "a"]
  = ["B"; "Replica"; "a"; "a"; "ab"; "b"; "replica"].
Proof. vm_compute. reflexivity. Qed.

Example TestFullName :
  fullName (rowOf "a" "b") = "a.b"
  ∧ fullName (rowOf "db" EmptyString) = "db."
  ∧ fullName (rowOf EmptyString "t") = ".t".
Proof. repeat split. Qed.

Example TestInShard :
  let d := Some (<["present_db.present_table" := true]>
                   (<["present_db.absent_table" := false]>
                      (<["absent_db.present_table" := false]>
                         {[ "absent_db.absent_table" := false ]}))) in
  (∃ e, inShard d "nonexistent" "present_table" = (false, Some e)
        ∧ Is e errUnknownBackupShard = true)
  ∧ (∃ e, inShard d "present_db" "nonexistent" = (false, Some e)
          ∧ Is e errUnknownBackupShard = true)
  ∧ inShard d "present_db" "present_table" = (true, None)
  ∧ inShard d "present_db" "absent_table" = (false, None)
  ∧ inShard d "absent_db" "present_table" = (false, None)
  ∧ inShard d "absent_db" "absent_table" = (false, None).
Proof.
  simpl. repeat split; try (vm_compute; reflexivity);
    eexists; (split; [vm_compute; reflexivity | reflexivity]).
Qed.

Example TestFNVHashModShardFunc :
  (∃ e, fnvHashModShardFunc
          {| Database := "database"; Table := "table"; ReplicaName := "replica";
             ReplicaIsActive := ∅ |} = Returned (false, Some e)
        ∧ Is e errNoActiveReplicas = true)
  ∧ (∃ e, fnvHashModShardFunc noneActive = Returned (false, Some e)
          ∧ Is e errNoActiveReplicas = true)
  ∧ fnvHashModShardFunc
      {| Database := "database"; Table := "table"; ReplicaName := "replica";
         ReplicaIsActive := {[ "replica" := 1 ]} |} = Returned (true, None)
  ∧ fnvHashModShardFunc
      {| Database := "database"; Table := "table"; ReplicaName := "replica";
         ReplicaIsActive := <["replica" := 1]> (<["a" := 0]> {[ "b" := 0 ]}) |}
    = Returned (true, None)
  ∧ fnvHashModShardFunc
      {| Database := "database"; Table := "table"; ReplicaName := "replica";
         ReplicaIsActive := {[ "different" := 1 ]} |} = Returned (false, None).
Proof.
  repeat split; try (vm_compute; reflexivity);
    eexists; (split; [vm_compute; reflexivity | reflexivity]).
Qed.

Example TestPopulateBackupShardField_errors :
  (populateBackupShardField
     {| ShardedOperation := true;
        vers := testVersioner_versioner
                  {| version := 0; versionErr := Some (foreignError "versioner error") |};
        bs := staticSharder |} tt tableData quietWorld).1.2
  = Returned (Some (foreignError "versioner error"))
  ∧ (populateBackupShardField
       {| ShardedOperation := true; vers := oldVersioner; bs := staticSharder |}
       tt tableData quietWorld).1.2
    = Returned (Some errShardOperationVers)
  ∧ (populateBackupShardField
       {| ShardedOperation := true; vers := goodVersioner;
          bs := testBackupSharder_backupSharder
                  {| data := None; err := Some (foreignError "backup sharder error") |} |}
       tt tableData quietWorld).1.2
    = Returned (Some (foreignError "backup sharder error"))
  ∧ (populateBackupShardField
       {| ShardedOperation := true; vers := goodVersioner;
          bs := testBackupSharder_backupSharder {| data := Some ∅; err := None |} |}
       tt tableData quietWorld).1.2
    = Returned (Some (wrapError "error determining backup shard state for %q: %w"
                                ["a.present"] errUnknownBackupShard)).
Proof. repeat split; vm_compute; reflexivity. Qed.

(** * Further properties *)

(** ** Of the assignment function *)

Lemma sortedActive_same_set (m1 m2 : gmap string Z) (sorted : list string) :
  activeSet m1 = activeSet m2 → sortedActive m1 sorted → sortedActive m2 sorted.
Proof. unfold sortedActive. intros <-. tauto. Qed.

Lemma fnvHashModShardFunc_visiting_none (md : tableReplicaMetadata)
    (visited : list (string * Z)) :
  visited ≡ₚ map_to_list (ReplicaIsActive md) →
  activeSet (ReplicaIsActive md) = ∅ →
  fnvHashModShardFunc_visiting visited md
  = Returned (false, Some (wrapError "could not determine in-shard state for %s: %w"
                                     [fullName md] errNoActiveReplicas)).
Proof.
  intros Hv He. pose proof (sortedActive_exists (ReplicaIsActive md)) as Hs.
  rewrite (fnvHashModShardFunc_visiting_sorted md _ visited Hv Hs).
  rewrite decide_True; [reflexivity |]. apply (sortedActive_nil _ _ Hs), He.
Qed.

(** X1. The outcome of the assignment function depends on the activity map
    through its set of active replicas only: two rows of the same table
    and local replica whose maps have the same active replicas give the
    same outcome, whatever the inactive entries and whatever the positive
    values. *)
Theorem fnvHashModShardFunc_active_only (md1 md2 : tableReplicaMetadata)
    (v1 v2 : list (string * Z)) :
  v1 ≡ₚ map_to_list (ReplicaIsActive md1) →
  v2 ≡ₚ map_to_list (ReplicaIsActive md2) →
  Database md1 = Database md2 → Table md1 = Table md2 →
  ReplicaName md1 = ReplicaName md2 →
  activeSet (ReplicaIsActive md1) = activeSet (ReplicaIsActive md2) →
  fnvHashModShardFunc_visiting v1 md1 = fnvHashModShardFunc_visiting v2 md2.
Proof.
  intros Hv1 Hv2 Hd Ht Hr Ha.
  pose proof (sortedActive_exists (ReplicaIsActive md1)) as Hs1.
  pose proof (sortedActive_same_set _ _ _ Ha Hs1) as Hs2.
  rewrite (fnvHashModShardFunc_visiting_sorted md1 _ v1 Hv1 Hs1).
  rewrite (fnvHashModShardFunc_visiting_sorted md2 _ v2 Hv2 Hs2).
  unfold fullName. rewrite Hd, Ht, Hr. reflexivity.
Qed.

(** X2. A replica that is not active is never the owner: when the
    assignment function returns true, the local replica name is among the
    active replicas of the row. *)
Theorem fnvHashModShardFunc_owner_active (md : tableReplicaMetadata)
    (visited : list (string * Z)) (e : option error) :
  visited ≡ₚ map_to_list (ReplicaIsActive md) →
  fnvHashModShardFunc_visiting visited md = Returned (true, e) →
  ReplicaName md ∈ activeSet (ReplicaIsActive md).
Proof.
  intros Hv. pose proof (sortedActive_exists (ReplicaIsActive md)) as Hs.
  rewrite (fnvHashModShardFunc_visiting_sorted md _ visited Hv Hs).
  set (sorted := sortStrings _) in *. clearbody sorted.
  case_decide; [discriminate |]. case_decide; [discriminate |].
  destruct (sorted !! _) as [replica |] eqn:Hsel; [| discriminate].
  intros [= Hb _]. apply bool_decide_eq_true in Hb. subst replica.
  apply (proj2 (proj2 Hs)). eapply list_elem_of_lookup_2, Hsel.
Qed.

(** X3. With one active replica only, the hash plays no part: the
    assignment function returns no error, and true exactly when the local
    replica is that replica. *)
Theorem fnvHashModShardFunc_single (md : tableReplicaMetadata)
    (visited : list (string * Z)) (active : string) :
  visited ≡ₚ map_to_list (ReplicaIsActive md) →
  activeSet (ReplicaIsActive md) = {[ active ]} →
  fnvHashModShardFunc_visiting visited md
  = Returned (bool_decide (active = ReplicaName md), None).
Proof.
  intros Hv Ha.
  assert (sortedActive (ReplicaIsActive md) [active]) as Hs.
  { split; [repeat constructor |]. split; [apply NoDup_singleton |].
    intros replica. rewrite Ha, list_elem_of_singleton, elem_of_singleton. reflexivity. }
  rewrite (fnvHashModShardFunc_visiting_small md [active] visited Hv Hs).
  - rewrite Ha, size_singleton, Z.mod_1_r. reflexivity.
  - rewrite Ha. intros He. apply (not_elem_of_empty (C := gset string) active).
    rewrite <- He. apply elem_of_singleton. reflexivity.
  - rewrite Ha, size_singleton. lia.
Qed.

(** X4. The assignment function never reads past the end of the list of
    active replicas: if it panics, it is on the division, and it does so
    exactly when the number of active replicas is a multiple of [2^32]
    other than zero; in particular it returns whenever there are fewer than
    [2^32] of them. *)
Theorem fnvHashModShardFunc_panics (md : tableReplicaMetadata)
    (visited : list (string * Z)) :
  visited ≡ₚ map_to_list (ReplicaIsActive md) →
  let n := Z.of_nat (size (activeSet (ReplicaIsActive md))) in
  (∀ reason, fnvHashModShardFunc_visiting visited md = Panicked reason →
             reason = "integer divide by zero")
  ∧ (fnvHashModShardFunc_visiting visited md = Panicked "integer divide by zero"
     ↔ n ≠ 0 ∧ n mod 2 ^ 32 = 0)
  ∧ (n < 2 ^ 32 → ∃ r, fnvHashModShardFunc_visiting visited md = Returned r).
Proof.
  intros Hv n. pose proof (sortedActive_exists (ReplicaIsActive md)) as Hs.
  rewrite (fnvHashModShardFunc_visiting_sorted md _ visited Hv Hs).
  subst n. rewrite <- (sortedActive_length _ _ Hs).
  set (sorted := sortStrings _) in *. clearbody sorted.
  destruct (decide (sorted = [])) as [-> | Hne].
  { simpl. split; [discriminate |]. split; [| eauto].
    split; [discriminate | intros [H _]; contradiction]. }
  assert (length sorted ≠ 0%nat) by (destruct sorted; [congruence | discriminate]).
  destruct (decide (Z.of_nat (length sorted) mod 2 ^ 32 = 0)) as [H0 | H0].
  { split; [intros reason [= <-]; reflexivity |]. split.
    - split; [intros _; split; [lia | exact H0] | reflexivity].
    - intros Hlt. rewrite Z.mod_small in H0 by lia. lia. }
  destruct (lookup_lt_is_Some_2 sorted
              (Z.to_nat (fnv1a32 (fullName md) mod (Z.of_nat (length sorted) mod 2 ^ 32))))
    as [replica ->].
  { pose proof (fnv1a32_range (fullName md)).
    pose proof (Z.mod_pos_bound (Z.of_nat (length sorted)) (2 ^ 32) ltac:(lia)).
    pose proof (Z.mod_pos_bound (fnv1a32 (fullName md))
                  (Z.of_nat (length sorted) mod 2 ^ 32) ltac:(lia)).
    pose proof (Z.mod_le (Z.of_nat (length sorted)) (2 ^ 32) ltac:(lia) ltac:(lia)).
    lia. }
  split; [discriminate |]. split; [| eauto].
  split; [discriminate | intros [_ ?]; contradiction].
Qed.

Lemma fnvHashModShardFunc_active_only_witness :
  fnvHashModShardFunc_visiting [("z", 0); ("c", 1); ("b", 2); ("a", 1)] threeActive
  = fnvHashModShardFunc_visiting [("a", 7); ("y", -2); ("c", 3); ("b", 1)] threeActiveToo.
Proof.
  apply fnvHashModShardFunc_active_only;
    first [ reflexivity
          | apply (bool_decide_unpack _); vm_compute; exact I
          | vm_compute; reflexivity ].
Defined.

Lemma fnvHashModShardFunc_owner_active_witness :
  ReplicaName threeActive ∈ activeSet (ReplicaIsActive threeActive).
Proof.
  apply (fnvHashModShardFunc_owner_active threeActive
           [("z", 0); ("c", 1); ("b", 2); ("a", 1)] None).
  - apply (bool_decide_unpack _). vm_compute. exact I.
  - vm_compute. reflexivity.
Defined.

Lemma fnvHashModShardFunc_single_witness :
  fnvHashModShardFunc_visiting [("b", -1); ("replica", 1); ("a", 0)]
    (oneActive "replica" "replica")
  = Returned (bool_decide ("replica" = "replica"), None)
  ∧ fnvHashModShardFunc_visiting [("b", -1); ("different", 1); ("a", 0)]
      (oneActive "replica" "different")
    = Returned (bool_decide ("different" = "replica"), None).
Proof.
  split.
  - apply (fnvHashModShardFunc_single (oneActive "replica" "replica")).
    + apply (bool_decide_unpack _). vm_compute. exact I.
    + vm_compute. reflexivity.
  - apply (fnvHashModShardFunc_single (oneActive "replica" "different")).
    + apply (bool_decide_unpack _). vm_compute. exact I.
    + vm_compute. reflexivity.
Defined.

Lemma fnvHashModShardFunc_panics_witness :
  ∃ r, fnvHashModShardFunc_visiting [("z", 0); ("c", 1); ("b", 2); ("a", 1)] threeActive
       = Returned r.
Proof.
  apply (fnvHashModShardFunc_panics threeActive [("z", 0); ("c", 1); ("b", 2); ("a", 1)]).
  - apply (bool_decide_unpack _). vm_compute. exact I.
  - rewrite threeActive_size. lia.
Defined.

(** ** Of qualified names *)

Lemma append_assoc (s1 s2 s3 : string) : (s1 +:+ s2) +:+ s3 = s1 +:+ (s2 +:+ s3).
Proof.
  induction s1 as [| c s1 IH]; [reflexivity |].
  change (String c ((s1 +:+ s2) +:+ s3) = String c (s1 +:+ (s2 +:+ s3))).
  f_equal. exact IH.
Qed.

(** X5. The key of a lookup is the two names joined by a dot, and nothing
    tells where the database name ends: when the dot can be read as part of
    either name, the two readings are looked up under the same key and get
    the same answer from any map. *)
Theorem inShard_key_collision (d : shardDetermination) (database middle table : string) :
  inShard d (database +:+ "." +:+ middle) table
  = inShard d database (middle +:+ "." +:+ table).
Proof.
  assert (qualifiedName (database +:+ "." +:+ middle) table
          = qualifiedName database (middle +:+ "." +:+ table)) as Hkey.
  { unfold qualifiedName. rewrite append_assoc. reflexivity. }
  unfold inShard. rewrite Hkey. reflexivity.
Qed.

Lemma qualifiedName_nil (table : string) :
  qualifiedName EmptyString table
  = String (Ascii.Ascii false true true true false true false false) table.
Proof. reflexivity. Qed.

Lemma qualifiedName_cons (c : Ascii.ascii) (database table : string) :
  qualifiedName (String c database) table = String c (qualifiedName database table).
Proof. reflexivity. Qed.

(** X6. When database names hold no dot, the key tells the table: two
    pairs of names with the same qualified name are the same pair. *)
Theorem qualifiedName_inj (database1 table1 database2 table2 : string) :
  hasDot database1 = false → hasDot database2 = false →
  qualifiedName database1 table1 = qualifiedName database2 table2 →
  database1 = database2 ∧ table1 = table2.
Proof.
  revert database2.
  induction database1 as [| c1 d1 IH]; intros [| c2 d2]; simpl; intros H1 H2 Heq;
    rewrite ?qualifiedName_nil, ?qualifiedName_cons in Heq.
  - injection Heq as ->. split; reflexivity.
  - injection Heq as <- _. apply orb_false_iff in H2 as [H2 _].
    apply bool_decide_eq_false in H2. destruct H2. reflexivity.
  - injection Heq as -> _. apply orb_false_iff in H1 as [H1 _].
    apply bool_decide_eq_false in H1. destruct H1. reflexivity.
  - injection Heq as -> Heq.
    apply orb_false_iff in H1 as [_ H1]. apply orb_false_iff in H2 as [_ H2].
    destruct (IH d2 H1 H2 Heq) as [-> ->]. split; reflexivity.
Qed.

Lemma qualifiedName_inj_witness :
  "d" +:+ "b" = "db" ∧ "a" +:+ ".b" = "a.b".
Proof. apply (qualifiedName_inj ("d" +:+ "b") ("a" +:+ ".b") "db" "a.b"); reflexivity. Defined.

(** ** Of the replica determiner *)

Section DeterminerFurther.

Context {context backend : Type}.

Implicit Types (ctx : context) (w : world backend).
Implicit Types (rd : replicaDeterminer context backend).

(** X7. When the replica-state query fails, [getReplicaState] drops
    whatever rows were decoded and returns the error of the querier wrapped
    once, so that [errors.Is] still finds in it all it found in the
    querier's error; [determineShards] returns the same error with the nil
    map, whatever the shard function is; in both the one query is the only
    call made. *)
Theorem query_failure rd ctx w (md : list tableReplicaMetadata) (err : error)
    (s : backend) :
  StructSelectContext (q rd) ctx replicaStateQuery (state w) = (Returned (md, Some err), s) →
  ∃ e,
    e = wrapError "could not determine replication state: %w" [] err
    ∧ getReplicaState rd ctx w = (Returned ([], Some e), afterQuery w s)
    ∧ determineShards (replicaDeterminer_backupSharder rd) ctx w
      = (Returned (None, Some e), afterQuery w s)
    ∧ Is e err = true
    ∧ ∀ target, Is err target = true → Is e target = true.
Proof.
  intros Hq. eexists. split; [reflexivity |].
  assert (getReplicaState rd ctx w
          = (Returned ([], Some (wrapError "could not determine replication state: %w"
                                           [] err)), afterQuery w s)) as Hget.
  { unfold getReplicaState, invokeStructSelectContext. rewrite Hq. reflexivity. }
  split; [exact Hget |]. split.
  - simpl. unfold replicaDeterminer_determineShards. rewrite Hget. reflexivity.
  - split.
    + apply (Is_Errorf _ _ err err), Is_refl.
    + intros target Ht. apply (Is_Errorf _ _ err target), Ht.
Qed.

End DeterminerFurther.

(** ** Of the orchestration step *)

Section OrchestrationFurther.

Context {context backend fields : Type}.

Implicit Types (ctx : context) (w : world backend) (b : Backuper context backend).
Implicit Types (t : clickhouse.Table fields) (tables : list (clickhouse.Table fields)).
Implicit Types (assignment : shardDetermination).

Local Abbreviation full := (clickhouse.setBackupType clickhouse.ShardBackupFull).

(** X8. With the feature flag on, when the versioner fails or gives a
    version below 21000000, the step returns that error (the versioner's
    own, or [errShardOperationVers]), every table has kind Full, and the
    call of [GetVersion] is all that happened: the sharder is not asked. *)
Theorem populateBackupShardField_gate_fails b ctx tables w
    (version : Z) (e : option error) (s : backend) :
  ShardedOperation b = true →
  GetVersion (vers b) ctx (state w) = (Returned (version, e), s) →
  is_Some e ∨ version < 21000000 →
  populateBackupShardField b ctx tables w
  = (full <$> tables,
     Returned (Some (default errShardOperationVers e)),
     afterGetVersion w s).
Proof.
  intros Hflag Hget Hbad.
  unfold populateBackupShardField, canShardOperation, invokeGetVersion.
  rewrite Hflag, Hget, markAllFull_fmap. simpl.
  destruct e as [err |]; [reflexivity |].
  destruct Hbad as [[? [=]] | Hlow].
  unfold minVersShardOp. rewrite decide_True by lia. reflexivity.
Qed.

(** X9. With the flag on and the version gate passed, an error of the
    sharder is returned as it is, whatever map comes with it; every table
    has kind Full. *)
Theorem populateBackupShardField_sharder_fails b ctx tables w w1 w2
    assignment (err : error) :
  ShardedOperation b = true →
  canShardOperation ctx (vers b) w = (Returned None, w1) →
  determineShards (bs b) ctx w1 = (Returned (assignment, Some err), w2) →
  populateBackupShardField b ctx tables w
  = (full <$> tables, Returned (Some err), w2)
  ∧ Forall (λ t, clickhouse.BackupType t = clickhouse.ShardBackupFull) (full <$> tables).
Proof.
  intros Hflag Hgate Hbs. split; [| apply Forall_setFull].
  unfold populateBackupShardField. rewrite Hflag, Hgate, Hbs, markAllFull_fmap.
  reflexivity.
Qed.

Lemma annotate_None assignment tables tables' :
  annotate assignment tables = (tables', None) →
  Forall (λ t, is_Some (entries assignment !! keyOf t)) tables.
Proof.
  revert tables'; induction tables as [| t tables IH]; intros tables'; simpl.
  { constructor. }
  unfold inShard at 1, qualifiedName. fold (keyOf t).
  destruct (entries assignment !! keyOf t) as [present |] eqn:Hk; [| discriminate].
  simpl. destruct (annotate assignment tables) as [rest' e] eqn:Hrest.
  intros [= _ ->]. constructor; [eauto | eapply IH; reflexivity].
Qed.

(** X10. Once both gates are passed, the step returns no error exactly
    when the assignment knows every table of the list; each table then has
    kind SchemaOnly if the assignment holds false for it and Full if it
    holds true, and is otherwise unchanged. *)
Theorem populateBackupShardField_succeeds b ctx tables w w1 w2 assignment :
  ShardedOperation b = true →
  canShardOperation ctx (vers b) w = (Returned None, w1) →
  determineShards (bs b) ctx w1 = (Returned (assignment, None), w2) →
  ((populateBackupShardField b ctx tables w).1.2 = Returned None
   ↔ Forall (λ t, is_Some (entries assignment !! keyOf t)) tables)
  ∧ (Forall (λ t, is_Some (entries assignment !! keyOf t)) tables →
     populateBackupShardField b ctx tables w
     = ((λ t, clickhouse.setBackupType
                (if entries assignment !! keyOf t is Some false
                 then clickhouse.ShardBackupSchema else clickhouse.ShardBackupFull) t)
          <$> tables,
        Returned None, w2)).
Proof.
  intros Hflag Hgate Hbs.
  rewrite (populateBackupShardField_assigned b ctx tables w w1 w2 assignment Hflag Hgate Hbs).
  assert (Forall (λ t, is_Some (entries assignment !! keyOf t)) tables →
          annotate assignment (full <$> tables)
          = ((λ t, clickhouse.setBackupType
                     (if entries assignment !! keyOf t is Some false
                      then clickhouse.ShardBackupSchema else clickhouse.ShardBackupFull) t)
               <$> tables, None)) as Hall.
  { intros Hknown. rewrite annotate_complete by (apply Forall_fmap; exact Hknown).
    f_equal. rewrite <- list_fmap_compose. apply list_fmap_ext.
    intros i t _. unfold assigned, compose. simpl.
    change (keyOf (full t)) with (keyOf t).
    destruct (entries assignment !! keyOf t) as [[|] |]; reflexivity. }
  split.
  - simpl. split.
    + intros Hnone. clear Hall.
      assert (Forall (λ t, is_Some (entries assignment !! keyOf t)) (full <$> tables))
        as Hknown.
      { apply (annotate_None assignment _ (annotate assignment (full <$> tables)).1).
        destruct (annotate assignment (full <$> tables)) as [tables' e].
        simpl in *. injection Hnone as ->. reflexivity. }
      rewrite Forall_fmap in Hknown. exact Hknown.
    + intros Hknown. rewrite (Hall Hknown). reflexivity.
  - intros Hknown. rewrite (Hall Hknown). reflexivity.
Qed.

Lemma full_sameTable (tables1 tables2 : list (clickhouse.Table fields)) :
  Forall2 sameTable tables1 tables2 → full <$> tables1 = full <$> tables2.
Proof.
  induction 1 as [| t1 t2 l1 l2 (Hd & Hn & Ho) _ IH]; [reflexivity |].
  rewrite !fmap_cons, IH. f_equal.
  unfold clickhouse.setBackupType. rewrite Hd, Hn, Ho. reflexivity.
Qed.

(** X11. The kinds the tables come with play no part: on two lists of
    tables that differ by their kinds only, the step ends the same way and
    leaves the same tables. *)
Theorem populateBackupShardField_kinds_ignored b ctx w
    (tables1 tables2 : list (clickhouse.Table fields)) :
  Forall2 sameTable tables1 tables2 →
  populateBackupShardField b ctx tables1 w = populateBackupShardField b ctx tables2 w.
Proof.
  intros Hsame. unfold populateBackupShardField.
  rewrite !markAllFull_fmap, (full_sameTable _ _ Hsame). reflexivity.
Qed.

End OrchestrationFurther.

(** ** Of the step with the replica determiner as sharder *)

Section EndToEnd.

Context {context backend fields : Type}.

Implicit Types (ctx : context) (w : world backend) (b : Backuper context backend).
Implicit Types (rd : replicaDeterminer context backend).
Implicit Types (t : clickhouse.Table fields) (tables : list (clickhouse.Table fields)).

Local Abbreviation full := (clickhouse.setBackupType clickhouse.ShardBackupFull).

(** X12. With the replica determiner as sharder, the step makes no call
    at all, or the one call of [GetVersion], or that call followed by the
    one replica-state query, and nothing else; and the query is made only
    if the versioner gave no error and a version of 21000000 or more. *)
Theorem populateBackupShardField_calls b ctx tables w rd :
  bs b = replicaDeterminer_backupSharder rd →
  let w' := (populateBackupShardField b ctx tables w).2 in
  (calls w' = calls w
   ∨ calls w' = calls w ++ [callGetVersion]
   ∨ calls w' = calls w ++ [callGetVersion; callStructSelectContext replicaStateQuery])
  ∧ (calls w' = calls w ++ [callGetVersion; callStructSelectContext replicaStateQuery] →
     ∃ version s, GetVersion (vers b) ctx (state w) = (Returned (version, None), s)
                  ∧ 21000000 ≤ version).
Proof.
  intros Hbs. unfold populateBackupShardField. rewrite Hbs. simpl.
  assert (∀ l : list call, l ≠ l ++ [callGetVersion; callStructSelectContext replicaStateQuery])
    as Hlen.
  { intros l H. apply (f_equal length) in H. rewrite length_app in H. simpl in H. lia. }
  assert (∀ l : list call,
            l ++ [callGetVersion]
            ≠ l ++ [callGetVersion; callStructSelectContext replicaStateQuery]) as Hone.
  { intros l H. apply app_inv_head in H. discriminate. }
  destruct (ShardedOperation b); simpl.
  2: { split; [left; reflexivity | intros H; destruct (Hlen _ H)]. }
  unfold canShardOperation, invokeGetVersion.
  destruct (GetVersion (vers b) ctx (state w)) as [[[version [err |]] | r] s] eqn:Hget; simpl.
  - split; [right; left; reflexivity | intros H; destruct (Hone _ H)].
  - unfold minVersShardOp. case_decide as Hv; simpl.
    { split; [right; left; reflexivity | intros H; destruct (Hone _ H)]. }
    assert (∃ (version' : Z) (s' : backend),
              (Returned (version, @None error), s) = (Returned (version', @None error), s')
              ∧ 21000000 ≤ version') as Hok
      by (exists version, s; split; [reflexivity | lia]).
    unfold replicaDeterminer_determineShards, getReplicaState, invokeStructSelectContext.
    simpl.
    destruct (StructSelectContext (q rd) ctx replicaStateQuery s)
      as [[[md [err |]] | r] s2]; simpl;
      try (split; [right; right; rewrite <- app_assoc; reflexivity | intros _; exact Hok]).
    destruct (shardRows (sf rd) md ∅) as [[assignment [err |]] | r]; simpl;
      try (split; [right; right; rewrite <- app_assoc; reflexivity | intros _; exact Hok]).
    destruct (forRange (applyAssignment assignment) 0 (length (markAllFull tables))
                (markAllFull tables)) as [tables' e]. simpl.
    split; [right; right; rewrite <- app_assoc; reflexivity | intros _; exact Hok].
  - split; [right; left; reflexivity | intros H; destruct (Hone _ H)].
Qed.

Lemma fnvHashModShardFunc_returns (md : tableReplicaMetadata) :
  activeSet (ReplicaIsActive md) ≠ ∅ →
  Z.of_nat (size (activeSet (ReplicaIsActive md))) < 2 ^ 32 →
  ∃ a, fnvHashModShardFunc md = Returned (a, None).
Proof.
  intros Hne Hlt. pose proof (sortedActive_exists (ReplicaIsActive md)) as Hs.
  unfold fnvHashModShardFunc.
  rewrite (fnvHashModShardFunc_visiting_small md _ _ (reflexivity _) Hs Hne Hlt).
  destruct (sortedActive_selected _ _ (fnv1a32 (fullName md)) Hs Hne) as (replica & -> & _).
  { apply fnv1a32_range. }
  eauto.
Qed.

(** X13. With the flag on, a version that passes and the replica
    determiner with [fnvHashModShardFunc] as sharder: if the query gives a
    row none of whose replicas is active, after rows that have active
    replicas (fewer than [2^32] each), the step returns
    [errNoActiveReplicas] wrapped with the name of the table of that row,
    and every table of the list, whichever it is, has kind Full. *)
Theorem populateBackupShardField_no_active b ctx tables w rd
    (version : Z) (s1 s2 : backend)
    (pre post : list tableReplicaMetadata) (entry : tableReplicaMetadata) :
  ShardedOperation b = true →
  bs b = replicaDeterminer_backupSharder rd →
  sf rd = fnvHashModShardFunc →
  GetVersion (vers b) ctx (state w) = (Returned (version, None), s1) →
  21000000 ≤ version →
  StructSelectContext (q rd) ctx replicaStateQuery s1
  = (Returned (pre ++ entry :: post, None), s2) →
  Forall (λ r, activeSet (ReplicaIsActive r) ≠ ∅
               ∧ Z.of_nat (size (activeSet (ReplicaIsActive r))) < 2 ^ 32) pre →
  (∀ replica active, ReplicaIsActive entry !! replica = Some active → active ≤ 0) →
  populateBackupShardField b ctx tables w
  = (full <$> tables,
     Returned (Some (wrapError "could not determine in-shard state for %s: %w"
                               [Database entry +:+ "." +:+ Table entry]
                               errNoActiveReplicas)),
     afterQuery (afterGetVersion w s1) s2).
Proof.
  intros Hflag Hbs Hsf Hget Hv Hq Hpre Hidle.
  pose proof (canShardOperation_supported ctx (vers b) w version s1 Hget Hv) as Hgate.
  assert (determineShards (bs b) ctx (afterGetVersion w s1)
          = (Returned (None,
                       Some (wrapError "could not determine in-shard state for %s: %w"
                                       [fullName entry] errNoActiveReplicas)),
             afterQuery (afterGetVersion w s1) s2)) as Hdet.
  { rewrite Hbs. simpl.
    rewrite (replicaDeterminer_runs_shardRows rd ctx (afterGetVersion w s1) _ s2 Hq).
    rewrite (shardRows_abort (sf rd) pre post entry false
               (wrapError "could not determine in-shard state for %s: %w"
                          [fullName entry] errNoActiveReplicas)); [reflexivity | |].
    - rewrite Hsf. eapply Forall_impl; [exact Hpre |].
      intros r [Hne Hlt]. apply fnvHashModShardFunc_returns; assumption.
    - rewrite Hsf. unfold fnvHashModShardFunc.
      apply fnvHashModShardFunc_visiting_none; [reflexivity |].
      apply activeSet_empty, Hidle. }
  unfold populateBackupShardField. rewrite Hflag, Hgate, Hdet, markAllFull_fmap.
  reflexivity.
Qed.

(** The step over the rows of a query on which the shard function does not
    fail: the assignment it works with. *)
Lemma populateBackupShardField_over_rows b ctx tables w rd
    (version : Z) (s1 s2 : backend)
    (md : list tableReplicaMetadata) (owned : list bool) :
  ShardedOperation b = true →
  bs b = replicaDeterminer_backupSharder rd →
  GetVersion (vers b) ctx (state w) = (Returned (version, None), s1) →
  21000000 ≤ version →
  StructSelectContext (q rd) ctx replicaStateQuery s1 = (Returned (md, None), s2) →
  Forall2 (λ entry assigned, sf rd entry = Returned (assigned, None)) md owned →
  ∃ sd : gmap string bool,
    (∀ k, sd !! k = lastOwned md owned k)
    ∧ populateBackupShardField b ctx tables w
      = ((annotate (Some sd) (full <$> tables)).1,
         Returned (annotate (Some sd) (full <$> tables)).2,
         afterQuery (afterGetVersion w s1) s2).
Proof.
  intros Hflag Hbs Hget Hv Hq Hall.
  pose proof (canShardOperation_supported ctx (vers b) w version s1 Hget Hv) as Hgate.
  destruct (shardRows_complete (sf rd) md owned ∅ Hall) as (sd & Hrun & Hsd).
  exists sd. split.
  { intros k. rewrite Hsd. destruct (lastOwned md owned k); [reflexivity | apply lookup_empty]. }
  apply (populateBackupShardField_assigned b ctx tables w _ _ (Some sd) Hflag Hgate).
  rewrite Hbs. simpl.
  rewrite (replicaDeterminer_runs_shardRows rd ctx (afterGetVersion w s1) _ s2 Hq), Hrun.
  reflexivity.
Qed.

(** X14. With the flag on, a version that passes and the replica
    determiner as sharder: if the shard function fails on no row of the
    query and every table of the list is named by some row, the step
    returns no error, and each table has the kind the last row of its name
    gives it: SchemaOnly where the shard function returned false for that
    row, Full where it returned true. *)
Theorem populateBackupShardField_from_rows b ctx tables w rd
    (version : Z) (s1 s2 : backend)
    (md : list tableReplicaMetadata) (owned : list bool) :
  ShardedOperation b = true →
  bs b = replicaDeterminer_backupSharder rd →
  GetVersion (vers b) ctx (state w) = (Returned (version, None), s1) →
  21000000 ≤ version →
  StructSelectContext (q rd) ctx replicaStateQuery s1 = (Returned (md, None), s2) →
  Forall2 (λ entry assigned, sf rd entry = Returned (assigned, None)) md owned →
  Forall (λ t, keyOf t ∈ fullName <$> md) tables →
  populateBackupShardField b ctx tables w
  = (kindFromRows md owned <$> tables, Returned None,
     afterQuery (afterGetVersion w s1) s2).
Proof.
  intros Hflag Hbs Hget Hv Hq Hall Hnamed.
  destruct (populateBackupShardField_over_rows b ctx tables w rd version s1 s2 md owned
              Hflag Hbs Hget Hv Hq Hall) as (sd & Hsd & ->).
  pose proof (Forall2_length _ _ _ Hall) as Hlen.
  rewrite annotate_complete.
  - simpl.
    assert (assigned (Some sd) <$> (full <$> tables) = kindFromRows md owned <$> tables)
      as ->; [| reflexivity].
    rewrite <- list_fmap_compose. apply list_fmap_ext.
    intros i t _. unfold assigned, kindFromRows, compose. simpl.
    change (keyOf (full t)) with (keyOf t). rewrite Hsd.
    destruct (lastOwned md owned (keyOf t)) as [[|] |]; reflexivity.
  - apply Forall_fmap. eapply Forall_impl; [exact Hnamed |].
    intros t Hin. simpl. change (keyOf (full t)) with (keyOf t). rewrite Hsd.
    destruct (lastOwned md owned (keyOf t)) eqn:Hk; [eauto |].
    apply (lastOwned_None md owned (keyOf t) Hlen) in Hk. contradiction.
Qed.

(** X15. In the same setting, if a table of the list is named by no row
    of the query while those before it are, the step returns the
    unknown-backup-shard error that names this table; the tables before it
    have the kind their rows give them, this table and those after it have
    kind Full. *)
Theorem populateBackupShardField_unlisted b ctx w rd
    (version : Z) (s1 s2 : backend)
    (md : list tableReplicaMetadata) (owned : list bool)
    (pre post : list (clickhouse.Table fields)) t :
  ShardedOperation b = true →
  bs b = replicaDeterminer_backupSharder rd →
  GetVersion (vers b) ctx (state w) = (Returned (version, None), s1) →
  21000000 ≤ version →
  StructSelectContext (q rd) ctx replicaStateQuery s1 = (Returned (md, None), s2) →
  Forall2 (λ entry assigned, sf rd entry = Returned (assigned, None)) md owned →
  Forall (λ p, keyOf p ∈ fullName <$> md) pre →
  keyOf t ∉ fullName <$> md →
  populateBackupShardField b ctx (pre ++ t :: post) w
  = ((kindFromRows md owned <$> pre) ++ (full <$> t :: post),
     Returned (Some (wrapError "error determining backup shard state for %q: %w"
                               [clickhouse.Database t +:+ "." +:+ clickhouse.Name t]
                               errUnknownBackupShard)),
     afterQuery (afterGetVersion w s1) s2).
Proof.
  intros Hflag Hbs Hget Hv Hq Hall Hnamed Hunlisted.
  destruct (populateBackupShardField_over_rows b ctx (pre ++ t :: post) w rd version
              s1 s2 md owned Hflag Hbs Hget Hv Hq Hall) as (sd & Hsd & ->).
  pose proof (Forall2_length _ _ _ Hall) as Hlen.
  rewrite fmap_app, fmap_cons.
  rewrite (annotate_abort (Some sd) (full <$> pre) (full <$> post) (full t)).
  - simpl.
    assert (assigned (Some sd) <$> (full <$> pre) = kindFromRows md owned <$> pre)
      as ->; [| reflexivity].
    rewrite <- list_fmap_compose. apply list_fmap_ext.
    intros i p _. unfold assigned, kindFromRows, compose. simpl.
    change (keyOf (full p)) with (keyOf p). rewrite Hsd.
    destruct (lastOwned md owned (keyOf p)) as [[|] |]; reflexivity.
  - apply Forall_fmap. eapply Forall_impl; [exact Hnamed |].
    intros p Hin. simpl. change (keyOf (full p)) with (keyOf p). rewrite Hsd.
    destruct (lastOwned md owned (keyOf p)) eqn:Hk; [eauto |].
    apply (lastOwned_None md owned (keyOf p) Hlen) in Hk. contradiction.
  - simpl. change (keyOf (full t)) with (keyOf t). rewrite Hsd.
    apply (lastOwned_None md owned (keyOf t) Hlen), Hunlisted.
Qed.

End EndToEnd.

(** ** Of the construction of a backuper *)

Section Construction.

Context {context backend : Type}.

Implicit Types (cfg : Config context backend) (opts : list (BackuperOpt context backend)).

Lemma NewBackuper_snoc cfg opts (opt : BackuperOpt context backend) :
  NewBackuper cfg (opts ++ [opt]) = opt (NewBackuper cfg opts).
Proof. unfold NewBackuper. rewrite foldl_app. reflexivity. Qed.

(** X16. The options of [NewBackuper] are applied in the order they are
    given. Options made by [WithVersioner] and [WithBackupSharder] leave
    the feature flag as the configuration has it; the versioner is that of
    the last [WithVersioner], the sharder that of the last
    [WithBackupSharder], each option leaving the other part as it was; and
    with no [WithBackupSharder] at all the sharder is the replica
    determiner over the server of the configuration with
    [fnvHashModShardFunc]. *)
Theorem NewBackuper_options cfg opts :
  Forall isBackuperOpt opts →
  ShardedOperation (NewBackuper cfg opts) = General_ShardedOperation cfg
  ∧ (∀ v, vers (NewBackuper cfg (opts ++ [WithVersioner v])) = v
          ∧ bs (NewBackuper cfg (opts ++ [WithVersioner v])) = bs (NewBackuper cfg opts))
  ∧ (∀ s, bs (NewBackuper cfg (opts ++ [WithBackupSharder s])) = s
          ∧ vers (NewBackuper cfg (opts ++ [WithBackupSharder s]))
            = vers (NewBackuper cfg opts))
  ∧ (Forall (λ opt, ∃ v, opt = WithVersioner v) opts →
     bs (NewBackuper cfg opts)
     = replicaDeterminer_backupSharder
         (newReplicaDeterminer (asQuerier (server cfg)) fnvHashModShardFunc)).
Proof.
  intros Hopts. split; [| split; [| split]].
  - induction opts as [| opt opts IH] using rev_ind; [reflexivity |].
    apply Forall_app in Hopts as [Hopts Hopt]. apply Forall_inv in Hopt.
    rewrite NewBackuper_snoc. destruct Hopt as [[v ->] | [s ->]]; simpl; auto.
  - intros v. rewrite NewBackuper_snoc. split; reflexivity.
  - intros s. rewrite NewBackuper_snoc. split; reflexivity.
  - clear Hopts. induction opts as [| opt opts IH] using rev_ind; [reflexivity |].
    intros Hv. apply Forall_app in Hv as [Hv Hopt]. apply Forall_inv in Hopt.
    destruct Hopt as [v ->]. rewrite NewBackuper_snoc. simpl. auto.
Qed.

End Construction.

(** ** The further statements on sample data *)

Lemma query_failure_witness :
  ∃ e,
    e = wrapError "could not determine replication state: %w" [] errQuery
    ∧ getReplicaState failingDeterminer tt quietWorld
      = (Returned ([], Some e), afterQuery quietWorld tt)
    ∧ determineShards (replicaDeterminer_backupSharder failingDeterminer) tt quietWorld
      = (Returned (None, Some e), afterQuery quietWorld tt)
    ∧ Is e errQuery = true
    ∧ ∀ target, Is errQuery target = true → Is e target = true.
Proof. apply (query_failure failingDeterminer tt quietWorld [] errQuery tt). reflexivity. Defined.

Lemma populateBackupShardField_gate_fails_witness :
  populateBackupShardField
    {| ShardedOperation := true; vers := oldVersioner; bs := staticSharder |}
    tt tableData quietWorld
  = (clickhouse.setBackupType clickhouse.ShardBackupFull <$> tableData,
     Returned (Some errShardOperationVers), afterGetVersion quietWorld tt).
Proof.
  apply (populateBackupShardField_gate_fails
           {| ShardedOperation := true; vers := oldVersioner; bs := staticSharder |}
           tt tableData quietWorld (-1) None tt).
  - reflexivity.
  - reflexivity.
  - right. lia.
Defined.

Lemma populateBackupShardField_sharder_fails_witness :
  populateBackupShardField
    {| ShardedOperation := true; vers := goodVersioner;
       bs := testBackupSharder_backupSharder
               {| data := None; err := Some (foreignError "backup sharder error") |} |}
    tt tableData quietWorld
  = (clickhouse.setBackupType clickhouse.ShardBackupFull <$> tableData,
     Returned (Some (foreignError "backup sharder error")), afterGetVersion quietWorld tt).
Proof.
  apply (populateBackupShardField_sharder_fails
           {| ShardedOperation := true; vers := goodVersioner;
              bs := testBackupSharder_backupSharder
                      {| data := None; err := Some (foreignError "backup sharder error") |} |}
           tt tableData quietWorld (afterGetVersion quietWorld tt)
           (afterGetVersion quietWorld tt) None); reflexivity.
Defined.

Lemma staticSharder_knows_tableData :
  Forall (λ t : clickhouse.Table unit,
            is_Some (entries (Some (<["a.present" := true]>
                                      (<["a.absent" := false]> {[ "b.present" := true ]})))
                     !! keyOf t)) tableData.
Proof. apply (bool_decide_unpack _). vm_compute. exact I. Defined.

Lemma populateBackupShardField_succeeds_witness :
  (populateBackupShardField shardingBackuper tt tableData quietWorld).1.2 = Returned None.
Proof.
  apply (proj1 (populateBackupShardField_succeeds shardingBackuper tt tableData quietWorld
                  (afterGetVersion quietWorld tt) (afterGetVersion quietWorld tt)
                  (Some (<["a.present" := true]>
                           (<["a.absent" := false]> {[ "b.present" := true ]})))
                  eq_refl eq_refl eq_refl)).
  exact staticSharder_knows_tableData.
Defined.

Lemma populateBackupShardField_kinds_ignored_witness :
  populateBackupShardField shardingBackuper tt tableData quietWorld
  = populateBackupShardField shardingBackuper tt
      [ tableOfKind "a" "present" clickhouse.ShardBackupSchema;
        tableOfKind "a" "absent" clickhouse.ShardBackupFull;
        tableOfKind "b" "present" (clickhouse.ShardBackupOther "none") ] quietWorld.
Proof.
  apply populateBackupShardField_kinds_ignored.
  repeat constructor.
Defined.

Lemma populateBackupShardField_calls_witness :
  ∃ version s, GetVersion (vers nameBackuper) tt (state quietWorld)
               = (Returned (version, None), s)
               ∧ 21000000 ≤ version.
Proof.
  apply (proj2 (populateBackupShardField_calls nameBackuper tt tableData quietWorld
                  nameDeterminer eq_refl)).
  vm_compute. reflexivity.
Defined.

Lemma populateBackupShardField_no_active_witness :
  populateBackupShardField idleBackuper tt tableData quietWorld
  = (clickhouse.setBackupType clickhouse.ShardBackupFull <$> tableData,
     Returned (Some (wrapError "could not determine in-shard state for %s: %w"
                               ["x" +:+ "." +:+ "y"] errNoActiveReplicas)),
     afterQuery (afterGetVersion quietWorld tt) tt).
Proof.
  apply (populateBackupShardField_no_active idleBackuper tt tableData quietWorld
           (newReplicaDeterminer
              (testQuerier_querier {| rows := rowsWithIdle; returnErr := None |})
              fnvHashModShardFunc)
           21000000 tt tt [threeActive]
           [threeActiveToo]
           {| Database := "x"; Table := "y"; ReplicaName := "c"; ReplicaIsActive := ∅ |});
    try reflexivity.
  - constructor; [| constructor]. split; [exact threeActive_nonempty |].
    rewrite threeActive_size. lia.
  - intros replica active Hm. simpl in Hm.
    pose proof (lookup_empty (M := gmap string) (A := Z) replica) as He.
    rewrite He in Hm. discriminate.
Defined.

Lemma nameSharder_normalRows :
  Forall2 (λ entry assigned, nameSharder entry = Returned (assigned, None))
          normalRows [true; false; true].
Proof. repeat constructor. Defined.

Lemma populateBackupShardField_from_rows_witness :
  populateBackupShardField nameBackuper tt tableData quietWorld
  = (kindFromRows normalRows [true; false; true] <$> tableData, Returned None,
     afterQuery (afterGetVersion quietWorld tt) tt).
Proof.
  apply (populateBackupShardField_from_rows nameBackuper tt tableData quietWorld
           nameDeterminer 21000000 tt tt normalRows [true; false; true]);
    try reflexivity.
  - exact nameSharder_normalRows.
  - apply (bool_decide_unpack _). vm_compute. exact I.
Defined.

Lemma populateBackupShardField_unlisted_witness :
  populateBackupShardField nameBackuper tt (tableData ++ newTable "c" "missing" :: [])
    quietWorld
  = ((kindFromRows normalRows [true; false; true] <$> tableData)
     ++ (clickhouse.setBackupType clickhouse.ShardBackupFull <$> [newTable "c" "missing"]),
     Returned (Some (wrapError "error determining backup shard state for %q: %w"
                               ["c" +:+ "." +:+ "missing"] errUnknownBackupShard)),
     afterQuery (afterGetVersion quietWorld tt) tt).
Proof.
  apply (populateBackupShardField_unlisted nameBackuper tt quietWorld
           nameDeterminer 21000000 tt tt normalRows [true; false; true]
           tableData [] (newTable "c" "missing"));
    try reflexivity.
  - exact nameSharder_normalRows.
  - apply (bool_decide_unpack _). vm_compute. exact I.
  - apply (bool_decide_unpack _). vm_compute. exact I.
Defined.

Lemma NewBackuper_options_witness :
  ShardedOperation
    (NewBackuper sampleConfig [WithVersioner oldVersioner; WithBackupSharder staticSharder])
  = true.
Proof.
  apply (NewBackuper_options sampleConfig
           [WithVersioner oldVersioner; WithBackupSharder staticSharder]).
  constructor; [left; exists oldVersioner; reflexivity |].
  constructor; [right; exists staticSharder; reflexivity |].
  constructor.
Defined.

Example kindFromRows_tableData :
  kindFromRows normalRows [true; false; true] <$> tableData
  = [ tableOfKind "a" "present" clickhouse.ShardBackupFull;
      tableOfKind "a" "absent" clickhouse.ShardBackupSchema;
      tableOfKind "b" "present" clickhouse.ShardBackupFull ].
Proof. vm_compute. reflexivity. Qed.
